(** * Circus raffle: the client-side round logic, ticket arithmetic and
    the round state machine it drives.

    The development follows the TypeScript sources:
    - [utils/tickets.ts] (first part of [unnamed/part_012])
      -> module [Tickets]
    - [hooks/useRaffleState.ts] -> module [RaffleState]
    - [hooks/useAutoCrank.ts] -> module [AutoCrank]
    - [hooks/useRaffleProgram.ts], which holds [useAdminFunctions],
      [useParticipantCount] and [useRaffleTransactions] -> module [Hooks]
    - [scripts/utils/get_participants.ts] (first part of
      [unnamed/part_004]) -> module [Scripts]
    - [components/StakingRaffle/StakingRaffle.tsx] (second part of
      [unnamed/part_012]) -> module [StakingRaffle]

    The on-chain program ([programs/rafa/src/lib.rs]) is not part of the
    TypeScript tree; the module [Chain] models it from the written
    specification. *)

From Stdlib Require Import ZArith Lia Bool List String Sorted.
From Stdlib Require Import Floats.SpecFloat.
From stdpp Require Import base option list gmap strings.

Local Open Scope Z_scope.

(** ** JavaScript numbers

  A JavaScript [number] is an IEEE 754 binary64 value.  Amounts in SOL are
  fractional, so they are modelled with the Standard Library's executable
  specification of binary floating point at precision 53 and exponent
  bound 1024.  Timestamps, epoch numbers and ticket counts are integers
  far below 2^53, where binary64 arithmetic is exact; they are modelled
  as [Z]. *)
Module Number.

Definition prec : Z := 53.
Definition emax : Z := 1024.

Abbreviation number := spec_float.

Definition mul (x y : number) : number := SFmul prec emax x y.
Definition div (x y : number) : number := SFdiv prec emax x y.
Definition leb (x y : number) : bool := SFleb x y.
Definition ltb (x y : number) : bool := SFltb x y.
Definition eqb (x y : number) : bool := SFeqb x y.

(** The number denoted by an integer literal (exact below 2^53). *)
Definition of_Z (z : Z) : number := binary_normalize prec emax z 0 false.

Definition zero : number := S754_zero false.

(** Signed integer mantissa of a finite value [(-1)^s * m * 2^e]. *)
Definition signed (s : bool) (m : positive) : Z :=
  if s then Z.neg m else Z.pos m.

(** [floorZ s m e] is the largest integer below [(-1)^s * m * 2^e]. *)
Definition floorZ (s : bool) (m : positive) (e : Z) : Z :=
  match e with
  | Z.neg k => signed s m / 2 ^ Z.pos k
  | _ => signed s m * 2 ^ e
  end.

(** [Math.floor]: infinities, NaN and zeros are returned unchanged. *)
Definition floor (x : number) : number :=
  match x with
  | S754_finite s m e => of_Z (floorZ s m e)
  | _ => x
  end.

(** [roundZ s m e] is the integer nearest to [(-1)^s * m * 2^e], ties
    going up: [floor (v + 1/2)] computed exactly. *)
Definition roundZ (s : bool) (m : positive) (e : Z) : Z :=
  match e with
  | Z.neg k => (2 * signed s m + 2 ^ Z.pos k) / 2 ^ (Z.pos k + 1)
  | _ => signed s m * 2 ^ e
  end.

(** [Math.round]: a result of zero keeps the sign of the argument. *)
Definition round (x : number) : number :=
  match x with
  | S754_finite s m e =>
      let r := roundZ s m e in
      if r =? 0 then S754_zero s else of_Z r
  | _ => x
  end.

(** The [%] operator: the remainder has the sign of the dividend and is
    exact; a non-finite dividend or a zero divisor gives NaN. *)
Definition rem (x y : number) : number :=
  match x, y with
  | S754_nan, _ | _, S754_nan => S754_nan
  | S754_infinity _, _ => S754_nan
  | _, S754_zero _ => S754_nan
  | _, S754_infinity _ => x
  | S754_zero _, _ => x
  | S754_finite sx mx ex, S754_finite sy my ey =>
      let e := Z.min ex ey in
      let X := Z.pos mx * 2 ^ (ex - e) in
      let Y := Z.pos my * 2 ^ (ey - e) in
      let R := Z.rem X Y in
      binary_normalize prec emax (if sx then - R else R) e sx
  end.

(** The integer a number denotes, when it denotes one. *)
Definition to_Z (x : number) : option Z :=
  match x with
  | S754_zero _ => Some 0
  | S754_finite s m e =>
      match e with
      | Z.neg k =>
          if (Z.pos m mod 2 ^ Z.pos k) =? 0
          then Some (signed s m / 2 ^ Z.pos k) else None
      | _ => Some (signed s m * 2 ^ e)
      end
  | _ => None
  end.

End Number.

(** ** [utils/tickets.ts] *)
Module Tickets.
Import Number.

(** The literal [0.01]: the binary64 value nearest to 1/100. *)
Definition TICKET_PRICE_SOL : number :=
  S754_finite false 5764607523034235 (-59).
Definition TICKET_PRICE_LAMPORTS : Z := 10000000.
Definition LAMPORTS_PER_SOL : Z := 1000000000.

Definition solToTickets (solAmount : number) : number :=
  floor (div solAmount TICKET_PRICE_SOL).

Definition ticketsToSol (tickets : number) : number :=
  mul tickets TICKET_PRICE_SOL.

(** On integers below 2^53 the division is exact up to the floor. *)
Definition lamportsToTickets (lamports : Z) : Z :=
  lamports / TICKET_PRICE_LAMPORTS.

Definition ticketsToLamports (tickets : Z) : Z :=
  tickets * TICKET_PRICE_LAMPORTS.

Definition isValidTicketAmount (solAmount : number) : bool :=
  let lamports := round (mul solAmount (of_Z LAMPORTS_PER_SOL)) in
  let remainder := rem lamports (of_Z TICKET_PRICE_LAMPORTS) in
  eqb remainder zero.



Definition getTicketCount (ticketStart ticketEnd : Z) : Z :=
  ticketEnd - ticketStart + 1.

Definition hasTickets (ticketStart ticketEnd : Z) : bool :=
  (0 <=? ticketStart) && (ticketStart <=? ticketEnd).

End Tickets.

(** ** [hooks/useRaffleState.ts]: the account types and the state fetch *)
Module RaffleState.

Record ProtocolState := {
  admin : string;
  validator : string;
  currentRound : Z;
  prizeSeedAmount : Z;
  totalUnclaimedPrizes : Z;
  ps_bump : Z
}.

Record RoundState := {
  roundId : Z;
  epochInRound : Z;
  startEpoch : Z;
  endEpoch : Z;
  stakeAccount : string;
  totalStakedLamports : Z;
  totalPrizeLamports : Z;
  totalTicketsSold : Z;
  winner : option string;
  winningTicket : Z;
  isComplete : bool;
  prizeClaimed : bool;
  vrfRequest : option string;
  rs_bump : Z
}.

Record UserAccount := {
  owner : string;
  balance : Z;
  ticketStart : Z;
  ticketEnd : Z;
  snapshotBalances : list Z;
  snapshotsRecordedMask : Z;
  roundJoined : Z;
  pendingWithdrawalAmount : Z;
  pendingWithdrawalRound : Z;
  ua_bump : Z
}.

Record ClaimTicket := {
  ct_roundId : Z;
  ct_winner : string;
  prizeAmount : Z;
  stakeAmount : Z;
  claimed : bool;
  ct_bump : Z
}.

(** [BN.toNumber()] throws when the value needs more than 53 bits. *)
Definition toNumber (bn : Z) : option Z :=
  if bn <? 2 ^ 53 then Some bn else None.

(** The claim-ticket accounts, addressed by the program-derived address
    of [(roundId, winner)] as [getClaimTicketPDA] computes it.  A missing
    account makes [program.account.claimTicket.fetch] throw. *)
Abbreviation claimTicketStore := (gmap (Z * string) ClaimTicket).

(** The program creates the ticket of [(roundId, winner)] at the address
    derived from that pair, so an account found at the address of
    [(i, pk)] records round [i] and winner [pk]. *)
Definition addressed (store : claimTicketStore) : Prop :=
  forall i pk t, store !! (i, pk) = Some t ->
                 ct_roundId t = i /\ ct_winner t = pk.

(** One iteration of the loop body: fetch, keep unclaimed tickets only,
    convert the fields; any exception skips the round. *)
Definition fetchClaimTicket (store : claimTicketStore) (publicKey : string)
    (i : Z) : option ClaimTicket :=
  claimTicket ← store !! (i, publicKey);
  if negb (claimed claimTicket) then
    r ← toNumber (ct_roundId claimTicket);
    p ← toNumber (prizeAmount claimTicket);
    k ← toNumber (stakeAmount claimTicket);
    Some {| ct_roundId := r; ct_winner := ct_winner claimTicket;
            prizeAmount := p; stakeAmount := k;
            claimed := claimed claimTicket;
            ct_bump := ct_bump claimTicket |}
  else None.

(** The rounds the loop visits:
    [for (i = Math.max(1, currentRoundId - 10); i <= currentRoundId; i++)]. *)
Definition claimTicketRounds (currentRoundId : Z) : list Z :=
  let first := Z.max 1 (currentRoundId - 10) in
  seqZ first (currentRoundId - first + 1).

(** The claim-ticket part of [fetchState]: the list handed to
    [setClaimTickets].  [None] stands for an exception that reaches the
    outer [catch], in which case the list is not updated. *)
Definition fetchClaimTickets (store : claimTicketStore)
    (publicKey : option string) (protocol : option ProtocolState)
    : option (list ClaimTicket) :=
  match publicKey, protocol with
  | Some pk, Some protocol =>
      currentRoundId ← toNumber (currentRound protocol);
      Some (omap (fetchClaimTicket store pk)
              (claimTicketRounds currentRoundId))
  | _, _ => Some []
  end.

End RaffleState.

(** ** [hooks/useAutoCrank.ts] *)
Module AutoCrank.
Import RaffleState.

Definition EPOCH_DURATION_SECONDS : Z := 120.
Definition CHECK_INTERVAL_MS : Z := 5000.

(** The [useRef] cells of the hook. *)
Record Refs := {
  lastCrankAttempt : Z;
  lastRoundInitAttempt : Z;
  isInitializingRound : bool
}.

(** What one run of [checkAndCrank] asks the program to do. *)
Inductive Call :=
| InitRound (nextRoundId randomSeed : Z)
| CallCrank.

Definition elapsedMs (roundState : RoundState) (currentTime : Z) : Z :=
  currentTime - startEpoch roundState.

Definition epochsPassed (roundState : RoundState) (currentTime : Z) : Z :=
  elapsedMs roundState currentTime / (EPOCH_DURATION_SECONDS * 1000).

Definition expectedEpoch (roundState : RoundState) (currentTime : Z) : Z :=
  Z.min (epochsPassed roundState currentTime + 1) 3.

Definition shouldAdvanceEpoch (roundState : RoundState) (currentTime : Z)
    : bool :=
  epochInRound roundState <? expectedEpoch roundState currentTime.

Definition epoch3EndTime (roundState : RoundState) : Z :=
  startEpoch roundState + 3 * EPOCH_DURATION_SECONDS * 1000.

Definition shouldFinalize (roundState : RoundState) (currentTime : Z)
    : bool :=
  (3 <=? epochInRound roundState)
  && (epoch3EndTime roundState <=? currentTime)
  && (0 <? totalTicketsSold roundState).

(** [checkAndCrank].  [connected] stands for [program && publicKey],
    [now] is the clock reading taken on entry, [seedNow] the second
    reading taken for [randomSeed], and [rpcOk] tells whether the
    [initRound] transaction went through.  The result is the call made,
    if any, and the new contents of the refs. *)
Definition checkAndCrank (connected isProcessing : bool)
    (roundState : RoundState) (refs : Refs) (now seedNow : Z)
    (rpcOk : bool) : option Call * Refs :=
  if isComplete roundState && negb (isInitializingRound refs) then
    if connected && (10000 <? now - lastRoundInitAttempt refs) then
      let nextRoundId := roundId roundState + 1 in
      (Some (InitRound nextRoundId seedNow),
       {| lastCrankAttempt := lastCrankAttempt refs;
          lastRoundInitAttempt := now;
          isInitializingRound := rpcOk |})
    else (None, refs)
  else if now - lastCrankAttempt refs <? 15000 then (None, refs)
  else if isProcessing then (None, refs)
  else if shouldAdvanceEpoch roundState now || shouldFinalize roundState now
  then
    (Some CallCrank,
     {| lastCrankAttempt := now;
        lastRoundInitAttempt := lastRoundInitAttempt refs;
        isInitializingRound := isInitializingRound refs |})
  else (None, refs).

End AutoCrank.

(** ** [hooks/useRaffleProgram.ts]: [useAdminFunctions],
       [useParticipantCount] and [useRaffleTransactions] *)
Module Hooks.
Import Number RaffleState.

(** The instructions the hooks send to the program, with the arguments
    and the [remainingAccounts] they attach. *)
Inductive Instruction :=
| IxInitRound (roundId randomSeed : Z)
| IxSelectWinnerLocal (seed : Z) (remainingAccounts : list string)
| IxCrank (remainingAccounts : list string)
| IxDeposit (amount : number).


(** [program.account.userAccount.all()]: every user account with the
    address it lives at. *)
Abbreviation allAccounts := (list (string * UserAccount)).


(** The accounts [selectWinner], [takeSnapshot] and [callCrank] attach:
    [allAccounts.filter(acc => acc.account.roundJoined.toNumber() ===
    currentRound).map(acc => acc.publicKey)].  [None] when a [toNumber]
    throws. *)
Fixpoint participatingAccounts (accounts : allAccounts) (currentRound : Z)
    : option (list string) :=
  match accounts with
  | [] => Some []
  | (publicKey, acc) :: rest =>
      r ← toNumber (roundJoined acc);
      tl ← participatingAccounts rest currentRound;
      Some (if r =? currentRound then publicKey :: tl else tl)
  end.


(** [callCrank]. *)
Definition callCrank (accounts : allAccounts) (currentRound : Z)
    : option Instruction :=
  batch ← participatingAccounts accounts currentRound;
  Some (IxCrank batch).

(** The fields [toNumber] is applied to fit a JavaScript number. *)
Definition safeAccount (acc : UserAccount) : Prop :=
  roundJoined acc < 2 ^ 53 /\ balance acc < 2 ^ 53
  /\ ticketStart acc < 2 ^ 53 /\ ticketEnd acc < 2 ^ 53.

(** The condition of both participant queries: joined this round and
    holds a balance. *)
Definition isParticipant (roundId : Z) (a : string * UserAccount) : Prop :=
  roundJoined a.2 = roundId /\ 0 < balance a.2.

#[export] Instance isParticipant_dec roundId a :
  Decision (isParticipant roundId a).
Proof. unfold isParticipant. apply _. Defined.

(** [useParticipantCount]: the filter of [fetchParticipants]. *)
Fixpoint participants (accounts : allAccounts) (roundId : Z)
    : option allAccounts :=
  match accounts with
  | [] => Some []
  | (publicKey, acc) :: rest =>
      r ← toNumber (roundJoined acc);
      keep ← (if r =? roundId
              then b ← toNumber (balance acc); Some (0 <? b)
              else Some false);
      tl ← participants rest roundId;
      Some (if keep : bool then (publicKey, acc) :: tl else tl)
  end.

(** The count the hook stores: 0 without a program or a round, and 0
    when the query throws. *)
Definition participantCount (program : bool) (roundId : option Z)
    (accounts : allAccounts) : Z :=
  match program, roundId with
  | true, Some roundId =>
      match participants accounts roundId with
      | Some l => Z.of_nat (length l)
      | None => 0
      end
  | _, _ => 0
  end.

(** The outcomes of [deposit].  The first three are the early returns,
    with the messages 'Wallet not connected or program not ready',
    'Amount must be greater than 0' and 'Amount must be whole tickets
    only! ... Try <suggested> SOL instead.'; [TxFailed] carries the
    message the [catch] block reports for an exception. *)
Inductive DepositError :=
| NotReady
| NonPositiveAmount
| WholeTicketsOnly (suggested : number)
| TxFailed (message : string).

Record DepositResult := {
  success : bool;
  signature : option string;
  error : option DepositError
}.

Definition failure (e : DepositError) : DepositResult :=
  {| success := false; signature := None; error := Some e |}.

(** [new BN(number)]: bn.js asserts that the magnitude is below 2^53
    and throws otherwise, as it does for NaN and the infinities. *)
Definition newBN (x : number) : option number :=
  if ltb (SFabs x) (of_Z (2 ^ 53)) then Some x else None.

(** [deposit].  [ready] stands for [program && isReady && publicKey];
    [fetchProtocol] is the outcome of reading the protocol state (the
    message of the exception, or the current round) and [rpc] the
    outcome of sending and confirming an instruction (the signature, or
    the message of the exception).  The second component lists the
    instructions submitted. *)
Definition deposit (ready : bool) (fetchProtocol : string + Z)
      (rpc : Instruction -> string + string) (amountSOL : number)
      : DepositResult * list Instruction :=
  if negb ready then (failure NotReady, [])
  else if Number.leb amountSOL Number.zero
  then (failure NonPositiveAmount, [])
  else if negb (Tickets.isValidTicketAmount amountSOL) then
    (failure (WholeTicketsOnly
                (Number.mul (Number.floor (Tickets.solToTickets amountSOL))
                   Tickets.TICKET_PRICE_SOL)), [])
  else
    match newBN (Number.mul amountSOL (Number.of_Z Tickets.LAMPORTS_PER_SOL))
    with
    | None => (failure (TxFailed "Assertion failed"), [])
    | Some amountLamports =>
        match fetchProtocol with
        | inl message => (failure (TxFailed message), [])
        | inr currentRoundId =>
            let ix := IxDeposit amountLamports in
            match rpc ix with
            | inl tx =>
                ({| success := true; signature := Some tx; error := None |},
                 [ix])
            | inr message => (failure (TxFailed message), [ix])
            end
        end
    end.


End Hooks.

(** ** [scripts/utils/get_participants.ts] *)
Module Scripts.
Import RaffleState.

Record ParticipantInfo := {
  pi_pubkey : string;
  pi_owner : string;
  pi_balance : Z;
  pi_ticketStart : Z;
  pi_ticketEnd : Z;
  pi_roundJoined : Z
}.

(** The entry pushed for an account that passes the filter. *)
Definition info (a : string * UserAccount) : ParticipantInfo :=
  {| pi_pubkey := a.1; pi_owner := owner a.2; pi_balance := balance a.2;
     pi_ticketStart := ticketStart a.2; pi_ticketEnd := ticketEnd a.2;
     pi_roundJoined := roundJoined a.2 |}.

(** The body of the [try] block; [None] when a [toNumber] throws. *)
Fixpoint collectParticipants (userAccounts : list (string * UserAccount))
    (roundId : Z) : option (list ParticipantInfo) :=
  match userAccounts with
  | [] => Some []
  | (publicKey, account) :: rest =>
      roundJoined ← toNumber (roundJoined account);
      balance ← toNumber (balance account);
      this ← (if (roundJoined =? roundId) && (0 <? balance) then
                s ← toNumber (ticketStart account);
                e ← toNumber (ticketEnd account);
                Some [ {| pi_pubkey := publicKey;
                          pi_owner := owner account;
                          pi_balance := balance;
                          pi_ticketStart := s;
                          pi_ticketEnd := e;
                          pi_roundJoined := roundJoined |} ]
              else Some []);
      tl ← collectParticipants rest roundId;
      Some (this ++ tl)
  end.

(** [getParticipants]: the [catch] block returns the empty list. *)
Definition getParticipants (userAccounts : list (string * UserAccount))
    (roundId : Z) : list ParticipantInfo :=
  default [] (collectParticipants userAccounts roundId).

Definition getParticipantCount (userAccounts : list (string * UserAccount))
    (roundId : Z) : Z :=
  Z.of_nat (length (getParticipants userAccounts roundId)).

(** The accounts [test_crank.ts] and [test_full_flow.ts] attach to their
    [crank] call, the participants found "for winner selection":
    [participants.map(p => p.pubkey)]. *)
Definition crankBatch (userAccounts : list (string * UserAccount))
    (roundId : Z) : list string :=
  map pi_pubkey (getParticipants userAccounts roundId).

End Scripts.

(** ** [components/StakingRaffle/StakingRaffle.tsx]: the purchase gate *)
Module StakingRaffle.
Import Number RaffleState.

Inductive EpochStatus := Active | Ended | Completed.

Definition EpochStatus_eqb (a b : EpochStatus) : bool :=
  match a, b with
  | Active, Active | Ended, Ended | Completed, Completed => true
  | _, _ => false
  end.

(** [roundState?.epochInRound || 0] *)
Definition currentEpochInRound (roundState : option RoundState) : Z :=
  from_option epochInRound 0 roundState.

(** [roundState?.isComplete], read as a condition. *)
Definition roundIsComplete (roundState : option RoundState) : bool :=
  from_option isComplete false roundState.

Definition epochStatus (roundState : option RoundState) : EpochStatus :=
  if roundIsComplete roundState then Completed
  else if 3 <=? currentEpochInRound roundState then Ended
  else Active.

Definition canDeposit (roundState : option RoundState) : bool :=
  (currentEpochInRound roundState <? 3)
  && EpochStatus_eqb (epochStatus roundState) Active
  && negb (roundIsComplete roundState).

(** The pieces of component state the purchase handlers touch. *)
Record View := {
  connected : bool;
  ticketsToBuy : Z;
  showConfirmation : bool
}.

(** What a handler does besides updating the view. *)
Inductive Effect :=
| Alert (message : string)
| CallDeposit (solAmount : number).

Definition depositsClosedMessage : string :=
  "Deposits are closed. Please wait for the next round!".

Definition setShowConfirmation (b : bool) (v : View) : View :=
  {| connected := connected v; ticketsToBuy := ticketsToBuy v;
     showConfirmation := b |}.

Definition handleBuyClick (roundState : option RoundState) (v : View)
    : View * list Effect :=
  if negb (canDeposit roundState)
  then (v, [Alert depositsClosedMessage])
  else (setShowConfirmation true v, []).


Definition handleCancelPurchase (v : View) : View * list Effect :=
  (setShowConfirmation false v, []).

End StakingRaffle.

(** ** The on-chain program

  The program itself ([programs/rafa/src/lib.rs]) is not among the
  TypeScript sources.  Its round state machine, winner selection and
  deposit are modelled here from the specification (sections 4.1, 4.3
  and 4.4), on the account types of [RaffleState]. *)
Module Chain.
Import RaffleState.

(** Modelled from the spec: the error taxonomy of section 7, as far as
    crank and deposit raise it; [WinnerNotInBatch] is the failed
    selection of section 4.4. *)
Inductive Error :=
| InvalidTicketAmount
| ArithmeticOverflow
| DepositsClosedEpoch3
| RoundComplete
| WinnerNotInBatch.

(** Modelled from the spec: every entry point either succeeds or fails
    with an error of section 7. *)
Inductive result (A : Type) :=
| Ok (a : A)
| Err (e : Error).
Arguments Ok {A} a.
Arguments Err {A} e.

(** Modelled from the spec: the epoch duration of scenario 3 (120 s), in
    milliseconds. *)
Definition epochDuration : Z := 120 * 1000.

(** Modelled from the spec: the fixed ticket price of scenario 1, 0.01
    unit, in lamports. *)
Definition ticketPrice : Z := 10000000.

(** Modelled from the spec: the bound of the overflow-checked ticket
    counter of section 4.1, an unsigned 64-bit integer. *)
Definition U64_MAX : Z := 2 ^ 64 - 1.

(** Modelled from the spec: the assignment [round.epochInRound =
    targetEpoch] of section 4.3. *)
Definition setEpoch (e : Z) (r : RoundState) : RoundState :=
  {| roundId := roundId r; epochInRound := e; startEpoch := startEpoch r;
     endEpoch := endEpoch r; stakeAccount := stakeAccount r;
     totalStakedLamports := totalStakedLamports r;
     totalPrizeLamports := totalPrizeLamports r;
     totalTicketsSold := totalTicketsSold r; winner := winner r;
     winningTicket := winningTicket r; isComplete := isComplete r;
     prizeClaimed := prizeClaimed r; vrfRequest := vrfRequest r;
     rs_bump := rs_bump r |}.

(** Modelled from the spec: what finalization sets (section 4.3):
    winner, winning ticket, completion flag and end timestamp. *)
Definition setFinal (w : string) (ticket now : Z) (r : RoundState)
    : RoundState :=
  {| roundId := roundId r; epochInRound := epochInRound r;
     startEpoch := startEpoch r; endEpoch := now;
     stakeAccount := stakeAccount r;
     totalStakedLamports := totalStakedLamports r;
     totalPrizeLamports := totalPrizeLamports r;
     totalTicketsSold := totalTicketsSold r; winner := Some w;
     winningTicket := ticket; isComplete := true;
     prizeClaimed := prizeClaimed r; vrfRequest := vrfRequest r;
     rs_bump := rs_bump r |}.

(** Modelled from the spec: the effect of a deposit on the round (section
    4.1): [totalTicketsSold] and [totalStaked] grow. *)
Definition addTickets (numTickets amount : Z) (r : RoundState)
    : RoundState :=
  {| roundId := roundId r; epochInRound := epochInRound r;
     startEpoch := startEpoch r; endEpoch := endEpoch r;
     stakeAccount := stakeAccount r;
     totalStakedLamports := totalStakedLamports r + amount;
     totalPrizeLamports := totalPrizeLamports r;
     totalTicketsSold := totalTicketsSold r + numTickets;
     winner := winner r; winningTicket := winningTicket r;
     isComplete := isComplete r; prizeClaimed := prizeClaimed r;
     vrfRequest := vrfRequest r; rs_bump := rs_bump r |}.

(** Modelled from the spec: section 4.4, [winningTicket = seed mod
    ticketCount]. *)
Definition winningTicketOf (seed ticketCount : Z) : Z :=
  seed mod ticketCount.

(** Modelled from the spec: section 4.4, the range [start, end] of a
    participant record contains the ticket. *)
Definition holds (ticket : Z) (r : UserAccount) : bool :=
  (ticketStart r <=? ticket) && (ticket <=? ticketEnd r).

(** Modelled from the spec: the winner selection of the on-chain
    program, section 4.4: [select(seed, ticketCount, ledgerBatch)] scans the batch for the record whose [start, end]
    contains the winning ticket and returns its identity; selection
    fails when no record of the batch contains it. *)
Definition select (seed ticketCount : Z) (ledgerBatch : list UserAccount)
    : option string :=
  owner <$> List.find (holds (winningTicketOf seed ticketCount)) ledgerBatch.

(** Modelled from the spec: a participant record of section 3 holding
    the tickets [first .. last] of round 1. *)
Definition holder (identity : string) (first last : Z) : UserAccount :=
  {| owner := identity; balance := (last - first + 1) * 10000000;
     ticketStart := first; ticketEnd := last;
     snapshotBalances := [0; 0; 0]; snapshotsRecordedMask := 0;
     roundJoined := 1; pendingWithdrawalAmount := 0;
     pendingWithdrawalRound := 0; ua_bump := 0 |}.

(** Modelled from the spec: scenario 2, A holds tickets 0-9 and B holds
    tickets 10-14. *)
Definition scenarioLedger : list UserAccount :=
  [holder "A" 0 9; holder "B" 10 14].

(** Modelled from the spec: the ledger invariant of section 3, ranges of
    different identities do not overlap: a
    ticket held by two records of the batch has one owner. *)
Definition sameOwnerPerTicket (ledgerBatch : list UserAccount) : Prop :=
  forall r1 r2 ticket,
    r1 ∈ ledgerBatch -> r2 ∈ ledgerBatch ->
    holds ticket r1 = true -> holds ticket r2 = true ->
    owner r1 = owner r2.

(** Modelled from the spec: section 4.3, round creation starts in epoch
    1 with [startEpoch = now]. *)
Definition newRound (id now : Z) (stake : string) : RoundState :=
  {| roundId := id; epochInRound := 1; startEpoch := now; endEpoch := 0;
     stakeAccount := stake; totalStakedLamports := 0;
     totalPrizeLamports := 0; totalTicketsSold := 0; winner := None;
     winningTicket := 0; isComplete := false; prizeClaimed := false;
     vrfRequest := None; rs_bump := 0 |}.

(** Modelled from the spec: [targetEpoch] in the pseudo-code of section
    4.3. *)
Definition targetEpoch (r : RoundState) (now : Z) : Z :=
  let elapsed := now - startEpoch r in
  let epochsPassed := elapsed / epochDuration in
  Z.min (epochsPassed + 1) 3.

(** Modelled from the spec: the epoch update of the pseudo-code of
    section 4.3. *)
Definition advance (now : Z) (r : RoundState) : RoundState :=
  if epochInRound r <? targetEpoch r now
  then setEpoch (targetEpoch r now) r else r.

(** Modelled from the spec: the finalization condition of the pseudo-code
    of section 4.3. *)
Definition finalizeDue (now : Z) (r : RoundState) : bool :=
  (3 <=? epochInRound r)
  && (startEpoch r + 3 * epochDuration <=? now)
  && (0 <? totalTicketsSold r)
  && negb (isComplete r).

(** Modelled from the spec: [finalize(round)] of section 4.3; a failed
    selection fails the call. *)
Definition finalize (now seed : Z) (ledgerBatch : list UserAccount)
    (r : RoundState) : result RoundState :=
  match select seed (totalTicketsSold r) ledgerBatch with
  | Some w =>
      Ok (setFinal w (winningTicketOf seed (totalTicketsSold r)) now r)
  | None => Err WinnerNotInBatch
  end.

(** Modelled from the spec: the Crank of section 4.3, the [crank]
    instruction of the on-chain program. *)
Definition crank (now seed : Z) (ledgerBatch : list UserAccount)
    (r : RoundState) : result RoundState :=
  let r := advance now r in
  if finalizeDue now r then finalize now seed ledgerBatch r else Ok r.

(** Modelled from the spec: the persisted state of section 6 a round
    works on: the round record and the
    participant records by identity. *)
Record State := {
  round : RoundState;
  ledger : gmap string UserAccount
}.

(** Modelled from the spec: the participant record created lazily on a
    first deposit (section 3). *)
Definition newRecord (identity : string) : UserAccount :=
  {| owner := identity; balance := 0; ticketStart := 0; ticketEnd := 0;
     snapshotBalances := [0; 0; 0]; snapshotsRecordedMask := 0;
     roundJoined := 0; pendingWithdrawalAmount := 0;
     pendingWithdrawalRound := 0; ua_bump := 0 |}.

(** Modelled from the spec: the update of a participant record by a
    deposit (section 4.1): balance, ticket range and [roundJoined]. *)
Definition credit (amount first last joined : Z) (u : UserAccount)
    : UserAccount :=
  {| owner := owner u; balance := balance u + amount;
     ticketStart := first; ticketEnd := last;
     snapshotBalances := snapshotBalances u;
     snapshotsRecordedMask := snapshotsRecordedMask u;
     roundJoined := joined;
     pendingWithdrawalAmount := pendingWithdrawalAmount u;
     pendingWithdrawalRound := pendingWithdrawalRound u;
     ua_bump := ua_bump u |}.

(** Modelled from the spec: the [deposit] instruction of the on-chain
    program, [deposit(identity, amount)] of section 4.1,
    with the crank run as its pre-check and the deposit gate of section
    4.3 evaluated after it.  An error leaves no state change behind
    (section 7). *)
Definition deposit (now seed : Z) (ledgerBatch : list UserAccount)
    (identity : string) (amount : Z) (st : State) : result State :=
  if (amount <=? 0) || negb (amount mod ticketPrice =? 0)
  then Err InvalidTicketAmount
  else
    match crank now seed ledgerBatch (round st) with
    | Err e => Err e
    | Ok r =>
        if isComplete r then Err RoundComplete
        else if epochInRound r =? 3 then Err DepositsClosedEpoch3
        else
          let numTickets := amount / ticketPrice in
          let first := totalTicketsSold r in
          let last := first + numTickets - 1 in
          if U64_MAX <? first + numTickets then Err ArithmeticOverflow
          else
            let u := default (newRecord identity) (ledger st !! identity) in
            Ok {| round := addTickets numTickets amount r;
                  ledger := <[identity := credit amount first last
                                            (roundId r) u]> (ledger st) |}
    end.

(** Modelled from the spec: the calls any external actor can make on a
    round (section 2): the crank and the deposit. *)
Inductive Op :=
| OpCrank (now seed : Z) (ledgerBatch : list UserAccount)
| OpDeposit (now seed : Z) (ledgerBatch : list UserAccount)
    (identity : string) (amount : Z).

(** Modelled from the spec: the call is a crank. *)
Definition isCrank (op : Op) : bool :=
  match op with OpCrank _ _ _ => true | OpDeposit _ _ _ _ _ => false end.

(** Modelled from the spec: one call on the persisted state. *)
Definition run (op : Op) (st : State) : result State :=
  match op with
  | OpCrank now seed batch =>
      match crank now seed batch (round st) with
      | Ok r => Ok {| round := r; ledger := ledger st |}
      | Err e => Err e
      end
  | OpDeposit now seed batch identity amount =>
      deposit now seed batch identity amount st
  end.

(** Modelled from the spec: every entry point is all-or-nothing (section
    7), so a failed call changes nothing. *)
Definition step (op : Op) (st : State) : State :=
  match run op st with
  | Ok st' => st'
  | Err _ => st
  end.

(** Modelled from the spec: a sequence of calls. *)
Definition steps (ops : list Op) (st : State) : State :=
  fold_left (fun st op => step op st) ops st.

(** Modelled from the spec: the states a round can be in: created, then
    moved by any calls. *)
Inductive reachable : State -> Prop :=
| reachable_new id now stake ledger :
    reachable {| round := newRound id now stake; ledger := ledger |}
| reachable_step op st :
    reachable st -> reachable (step op st).

End Chain.

(** ** [hooks/useAutoCrank.ts]: the check run on its interval *)
Module AutoCrankRun.
Import RaffleState AutoCrank.

(** What one firing of the interval sees: the values the hook closes
    over, the two clock readings, the outcome of the [initRound]
    transaction, and whether the 2 s timer that clears
    [isInitializingRound] has fired since the previous check. *)
Record Tick := {
  t_connected : bool;
  t_isProcessing : bool;
  t_roundState : RoundState;
  t_now : Z;
  t_seedNow : Z;
  t_rpcOk : bool;
  t_timerFired : bool
}.

Definition clearInitializing (fired : bool) (refs : Refs) : Refs :=
  if fired then
    {| lastCrankAttempt := lastCrankAttempt refs;
       lastRoundInitAttempt := lastRoundInitAttempt refs;
       isInitializingRound := false |}
  else refs.

(** The calls a sequence of checks makes, each with the clock reading of
    its check; the refs persist from one check to the next. *)
Fixpoint runChecks (refs : Refs) (ticks : list Tick) : list (Z * Call) :=
  match ticks with
  | [] => []
  | k :: rest =>
      let out :=
        checkAndCrank (t_connected k) (t_isProcessing k) (t_roundState k)
          (clearInitializing (t_timerFired k) refs) (t_now k) (t_seedNow k)
          (t_rpcOk k) in
      match out.1 with
      | Some c => (t_now k, c) :: runChecks out.2 rest
      | None => runChecks out.2 rest
      end
  end.

Definition crankTime (e : Z * Call) : option Z :=
  match e.2 with CallCrank => Some e.1 | InitRound _ _ => None end.

Definition initTime (e : Z * Call) : option Z :=
  match e.2 with InitRound _ _ => Some e.1 | CallCrank => None end.

(** Each time of the list is at least [gap] after the one before it, the
    first at least [gap] after [last]. *)
Fixpoint spacedFrom (gap last : Z) (times : list Z) : Prop :=
  match times with
  | [] => True
  | t :: rest => gap <= t - last /\ spacedFrom gap t rest
  end.

End AutoCrankRun.

(** ** [components/StakingRaffle/StakingRaffle.tsx]: the countdown, the
       ticket form and the result screens *)
Module RaffleView.
Import Number RaffleState StakingRaffle.

Definition EPOCH_DURATION_SECONDS : Z := 120.

Record TimeRemaining := {
  hours : Z;
  minutes : Z;
  seconds : Z
}.

Definition noTime : TimeRemaining :=
  {| hours := 0; minutes := 0; seconds := 0 |}.

(** [calculateTimeRemaining]. *)
Definition calculateTimeRemaining (roundState : RoundState) (now : Z)
    : TimeRemaining :=
  let currentEpoch := epochInRound roundState in
  let epochEndTime :=
    startEpoch roundState + currentEpoch * EPOCH_DURATION_SECONDS * 1000 in
  let msRemaining := Z.max 0 (epochEndTime - now) in
  let secondsRemaining := msRemaining / 1000 in
  {| hours := secondsRemaining / 3600;
     minutes := (secondsRemaining mod 3600) / 60;
     seconds := secondsRemaining mod 60 |}.

(** The effect that sets the timer: zero without a round state, with a
    zero [startEpoch] or with epoch 0. *)
Definition timeRemainingOf (roundState : option RoundState) (now : Z)
    : TimeRemaining :=
  match roundState with
  | None => noTime
  | Some r =>
      if (startEpoch r =? 0) || (epochInRound r =? 0) then noTime
      else calculateTimeRemaining r now
  end.

(** The one-second countdown of the second interval. *)
Definition countdownTick (prev : TimeRemaining) : TimeRemaining :=
  let seconds := seconds prev - 1 in
  if seconds <? 0 then
    let minutes := minutes prev - 1 in
    if minutes <? 0 then
      let hours := hours prev - 1 in
      if hours <? 0 then noTime
      else {| hours := hours; minutes := 59; seconds := 59 |}
    else {| hours := hours prev; minutes := minutes; seconds := 59 |}
  else {| hours := hours prev; minutes := minutes prev; seconds := seconds |}.

Definition totalSeconds (t : TimeRemaining) : Z :=
  hours t * 3600 + minutes t * 60 + seconds t.

(** A reading as a clock shows it. *)
Definition wellFormed (t : TimeRemaining) : Prop :=
  0 <= hours t /\ 0 <= minutes t < 60 /\ 0 <= seconds t < 60.

(** The banner 'AUTO-ADVANCING EPOCH' under the countdown. *)
Definition showsAutoAdvancing (roundState : option RoundState)
    (t : TimeRemaining) : bool :=
  (hours t =? 0) && (minutes t =? 0) && (seconds t =? 0)
  && EpochStatus_eqb (epochStatus roundState) Active.





(** The first and last ticket [getNextTicketNumbers] announces. *)
Definition nextTicketNumbers (totalTicketsSold ticketsToBuy : Z) : Z * Z :=
  (totalTicketsSold, totalTicketsSold + ticketsToBuy - 1).

(** [roundState?.roundId || 0] *)
Definition epochId (roundState : option RoundState) : Z :=
  from_option roundId 0 roundState.

Definition userHasStakeInCompletedRound (roundState : option RoundState)
    (userAccount : option UserAccount) : bool :=
  roundIsComplete roundState
  && match userAccount with
     | None => false
     | Some u =>
         (roundJoined u =? epochId roundState)
         && ((0 <? balance u) || (0 <? pendingWithdrawalAmount u))
     end.

(** [roundState?.winner === publicKey?.toString()]: without a round state
    the left side is [undefined], as is the right side without a wallet;
    a round without winner has [null]. *)
Definition userWon (roundState : option RoundState)
    (publicKey : option string) : bool :=
  match roundState, publicKey with
  | None, None => true
  | Some r, Some pk =>
      match winner r with
      | Some w => bool_decide (w = pk)
      | None => false
      end
  | _, _ => false
  end.

(** What the component renders below the countdown. *)
Inductive Screen := MainGrid | WinnerView | LoserView | SpectatorView.

Definition screen (roundState : option RoundState)
    (userAccount : option UserAccount) (publicKey : option string)
    : Screen :=
  if EpochStatus_eqb (epochStatus roundState) Completed then
    if userHasStakeInCompletedRound roundState userAccount
       && userWon roundState publicKey
    then WinnerView
    else if userHasStakeInCompletedRound roundState userAccount
    then LoserView
    else SpectatorView
  else MainGrid.

End RaffleView.

(** ** [scripts/check_epoch_advancement.ts] (second part of
       [unnamed/part_004]) *)
Module Diagnostics.
Import RaffleState.

Definition EPOCH_DURATION_MS : Z := 120 * 1000.

Definition expectedEpoch (round : RoundState) (currentTime : Z) : Z :=
  let elapsedMs := currentTime - startEpoch round in
  let epochsPassed := elapsedMs / EPOCH_DURATION_MS in
  Z.min (epochsPassed + 1) 3.

(** 'WARNING: Epoch mismatch detected!' *)
Definition epochMismatch (round : RoundState) (currentTime : Z) : bool :=
  negb (epochInRound round =? expectedEpoch round currentTime).

(** 'Next epoch should have started!': [minutesUntilNext <= 0], the
    quotient having the sign of [timeUntilNext]. *)
Definition nextEpochOverdue (round : RoundState) (currentTime : Z) : bool :=
  (epochInRound round <? 3) && negb (isComplete round)
  && (let nextEpochTime :=
        startEpoch round + epochInRound round * EPOCH_DURATION_MS in
      let timeUntilNext := nextEpochTime - currentTime in
      timeUntilNext <=? 0).

(** 'Round should be finalized!' *)
Definition finalizationOverdue (round : RoundState) (currentTime : Z)
    : bool :=
  (3 <=? epochInRound round) && negb (isComplete round)
  && (let epoch3EndTime := startEpoch round + 3 * EPOCH_DURATION_MS in
      let timeUntilFinalize := epoch3EndTime - currentTime in
      timeUntilFinalize <=? 0).

End Diagnostics.

(** ** [bot/raffle-bot.ts] *)
Module Bot.
Import RaffleState.

Definition CHECK_INTERVAL_MS : Z := 30000.
Definition EPOCH_DURATION_MS : Z := 120000.

(** The instructions the bot sends. *)
Inductive Action :=
| InitRound (roundId startEpoch : Z)
| AdvanceEpoch
| TakeSnapshotBatch (remainingAccounts : list string)
| SelectWinnerLocal (seed : Z) (remainingAccounts : list string).

(** [takeSnapshot] followed by [selectWinner]: an exception in the first
    (from [toNumber], or from the transaction when [snapshotOk] is false)
    is thrown on, so that no winner is selected. *)
Definition snapshotAndSelect (accounts : Hooks.allAccounts)
    (currentRound seedNow : Z) (snapshotOk : bool) : list Action :=
  match Hooks.participatingAccounts accounts currentRound with
  | None => []
  | Some batch =>
      if snapshotOk
      then [TakeSnapshotBatch batch; SelectWinnerLocal seedNow batch]
      else [TakeSnapshotBatch batch]
  end.

(** [checkAndAct]: the instructions sent in one cycle.  [protocol] and
    [roundState] are [None] when their fetch throws; [now] is the clock
    reading of the cycle, [laterNow] the one taken for the start of a new
    round or for the seed. *)
Definition checkAndAct (isProcessing : bool)
    (protocol : option ProtocolState) (roundState : option RoundState)
    (accounts : Hooks.allAccounts) (now laterNow : Z) (snapshotOk : bool)
    : list Action :=
  if isProcessing then []
  else
    match protocol ≫= (fun p => toNumber (currentRound p)) with
    | None => []
    | Some currentRound =>
        if currentRound =? 0 then []
        else
          match roundState with
          | None => []
          | Some roundState =>
              let currentEpoch := epochInRound roundState in
              if isComplete roundState
              then [InitRound (currentRound + 1) laterNow]
              else
                let epochStartTime :=
                  startEpoch roundState
                  + (currentEpoch - 1) * EPOCH_DURATION_MS in
                let timeSinceEpochStart := now - epochStartTime in
                let timeRemaining :=
                  EPOCH_DURATION_MS - timeSinceEpochStart in
                if currentEpoch <? 3 then
                  if timeRemaining <=? 0 then [AdvanceEpoch] else []
                else if currentEpoch =? 3 then
                  if timeRemaining <=? 0
                  then snapshotAndSelect accounts currentRound laterNow
                         snapshotOk
                  else []
                else []
          end
    end.

End Bot.

(** * Properties *)

Import RaffleState.

(** ** The round state machine *)
Section ChainFacts.
Import Chain.

Lemma advance_fields now r :
  totalTicketsSold (advance now r) = totalTicketsSold r
  /\ isComplete (advance now r) = isComplete r
  /\ startEpoch (advance now r) = startEpoch r
  /\ epochInRound (advance now r)
     = Z.max (epochInRound r) (targetEpoch r now).
Proof.
  unfold advance.
  destruct (Z.ltb_spec (epochInRound r) (targetEpoch r now)); cbn;
    repeat split; lia.
Qed.

Lemma targetEpoch_advance now r :
  targetEpoch (advance now r) now = targetEpoch r now.
Proof.
  unfold targetEpoch.
  destruct (advance_fields now r) as (_ & _ & -> & _). reflexivity.
Qed.

Lemma finalizeDue_true now r :
  finalizeDue now r = true <->
  3 <= epochInRound r /\ startEpoch r + 3 * epochDuration <= now
  /\ 0 < totalTicketsSold r /\ isComplete r = false.
Proof.
  unfold finalizeDue.
  rewrite !andb_true_iff, negb_true_iff, !Z.leb_le, Z.ltb_lt. tauto.
Qed.

(** What a successful crank leaves behind. *)
Lemma crank_Ok now seed batch r r' :
  crank now seed batch r = Ok r' ->
  totalTicketsSold r' = totalTicketsSold r
  /\ startEpoch r' = startEpoch r
  /\ epochInRound r' = Z.max (epochInRound r) (targetEpoch r now)
  /\ ((isComplete r' = isComplete r
       /\ finalizeDue now (advance now r) = false)
      \/ (isComplete r = false /\ isComplete r' = true
          /\ 3 <= epochInRound r'
          /\ startEpoch r + 3 * epochDuration <= now
          /\ 0 < totalTicketsSold r)).
Proof.
  unfold crank. intros H.
  destruct (advance_fields now r) as (Ht & Hc & Hs & He).
  destruct (finalizeDue now (advance now r)) eqn:Hdue.
  - apply finalizeDue_true in Hdue as (H3 & Hend & Hpos & Hnc).
    unfold finalize in H.
    destruct (select seed _ batch) as [w|]; [|discriminate].
    injection H as <-. cbn.
    repeat split; try lia.
    right. repeat split; try congruence; lia.
  - injection H as <-. repeat split; try lia. left. split; congruence.
Qed.

Lemma deposit_Ok now seed batch identity amount st st' :
  deposit now seed batch identity amount st = Ok st' ->
  exists r numTickets,
    crank now seed batch (round st) = Ok r
    /\ isComplete r = false
    /\ 0 < numTickets
    /\ round st' = addTickets numTickets amount r.
Proof.
  unfold deposit. intros H.
  destruct (_ || _) eqn:Hamount; [discriminate|].
  apply orb_false_iff in Hamount as (Hpos & Hmul).
  apply Z.leb_gt in Hpos. apply negb_false_iff, Z.eqb_eq in Hmul.
  destruct (crank now seed batch (round st)) as [r|e] eqn:Hcr;
    [|discriminate].
  destruct (isComplete r) eqn:Hc; [discriminate|].
  destruct (epochInRound r =? 3); [discriminate|].
  destruct (U64_MAX <? _); [discriminate|].
  injection H as <-. exists r, (amount / ticketPrice). cbn.
  split; [reflexivity|]. split; [exact Hc|]. split; [|reflexivity].
  unfold ticketPrice in *.
  apply Z.mod_divide in Hmul; [|lia].
  destruct Hmul as [k ->]. rewrite Z.div_mul by lia. lia.
Qed.

(** One call never lowers the epoch or the ticket count, and completes
    a round only when tickets were sold. *)
Lemma step_round op st :
  epochInRound (round st) <= epochInRound (round (step op st))
  /\ totalTicketsSold (round st) <= totalTicketsSold (round (step op st))
  /\ (isComplete (round (step op st)) = true ->
      isComplete (round st) = true
      \/ 0 < totalTicketsSold (round (step op st))).
Proof.
  unfold step, run. destruct op as [now seed batch|now seed batch id amt].
  - destruct (crank now seed batch (round st)) as [r|e] eqn:Hc; cbn.
    + apply crank_Ok in Hc as (Ht & _ & He & Hfin).
      repeat split; try lia.
      intros Hdone. destruct Hfin as [[Heq _]|Hfin];
        [left; congruence|right; lia].
    + repeat split; try lia. tauto.
  - destruct (deposit now seed batch id amt st) as [st'|e] eqn:Hd.
    + apply deposit_Ok in Hd as (r & n & Hc & Hnc & Hn & ->).
      apply crank_Ok in Hc as (Ht & _ & He & _). cbn.
      repeat split; try lia. congruence.
    + repeat split; try lia. tauto.
Qed.

Lemma steps_epoch ops : forall st,
  epochInRound (round st) <= epochInRound (round (steps ops st)).
Proof.
  induction ops as [|op ops IH]; intros st; cbn; [lia|].
  specialize (IH (step op st)).
  destruct (step_round op st) as (He & _). unfold steps in IH. lia.
Qed.

Lemma reachable_complete st :
  reachable st ->
  isComplete (round st) = true -> 0 < totalTicketsSold (round st).
Proof.
  induction 1 as [id now stake l|op st Hr IH]; cbn; [discriminate|].
  intros Hdone.
  destruct (step_round op st) as (_ & Ht & Hc).
  destruct (Hc Hdone) as [Hold|Hpos]; [|exact Hpos].
  specialize (IH Hold). lia.
Qed.

(** Cranks alone never complete a round that has sold nothing. *)
Lemma cranks_keep_open ops : forall st,
  forallb isCrank ops = true ->
  totalTicketsSold (round st) = 0 ->
  isComplete (round st) = false ->
  totalTicketsSold (round (steps ops st)) = 0
  /\ isComplete (round (steps ops st)) = false.
Proof.
  induction ops as [|op ops IH]; intros st Hall H0 Hopen; cbn; [tauto|].
  cbn in Hall. apply andb_true_iff in Hall as (Hop & Hall).
  apply IH; [exact Hall| |].
  - destruct op as [now seed batch|]; [|discriminate].
    unfold step, run.
    destruct (crank now seed batch (round st)) as [r|e] eqn:Hc; cbn;
      [|exact H0].
    apply crank_Ok in Hc as (Ht & _). lia.
  - destruct op as [now seed batch|]; [|discriminate].
    unfold step, run.
    destruct (crank now seed batch (round st)) as [r|e] eqn:Hc; cbn;
      [|exact Hopen].
    apply crank_Ok in Hc as (Ht & _ & _ & [[-> _]|Hfin]); [exact Hopen|].
    lia.
Qed.

End ChainFacts.

(** ** The crank check of the client against the round state machine *)
Section CrankCheck.
Import AutoCrank.


Lemma shouldFinalize_true r now :
  shouldFinalize r now = true <->
  3 <= epochInRound r
  /\ startEpoch r + 3 * (EPOCH_DURATION_SECONDS * 1000) <= now
  /\ 0 < totalTicketsSold r.
Proof.
  unfold shouldFinalize, epoch3EndTime, EPOCH_DURATION_SECONDS.
  rewrite !andb_true_iff, !Z.leb_le, Z.ltb_lt. lia.
Qed.

Lemma expectedEpoch_mono r now now' :
  now <= now' -> expectedEpoch r now <= expectedEpoch r now'.
Proof.
  intros Hle. unfold expectedEpoch, epochsPassed, elapsedMs.
  assert (Hd : (now - startEpoch r) / (EPOCH_DURATION_SECONDS * 1000)
               <= (now' - startEpoch r) / (EPOCH_DURATION_SECONDS * 1000)).
  { apply Z.div_le_mono; [reflexivity|lia]. }
  lia.
Qed.

Lemma expectedEpoch_range r now :
  startEpoch r <= now -> 1 <= expectedEpoch r now <= 3.
Proof.
  intros Hle. unfold expectedEpoch, epochsPassed, elapsedMs.
  assert (Hd : 0 <= (now - startEpoch r) / (EPOCH_DURATION_SECONDS * 1000)).
  { apply Z.div_pos; [lia|reflexivity]. }
  lia.
Qed.

(** A crank is requested only for one of the two reasons. *)
Lemma checkAndCrank_CallCrank connected isProcessing r refs now seedNow
    rpcOk :
  (checkAndCrank connected isProcessing r refs now seedNow rpcOk).1
    = Some CallCrank ->
  (shouldAdvanceEpoch r now = true \/ shouldFinalize r now = true)
  /\ (checkAndCrank connected isProcessing r refs now seedNow rpcOk).2
     = {| lastCrankAttempt := now;
          lastRoundInitAttempt := lastRoundInitAttempt refs;
          isInitializingRound := isInitializingRound refs |}.
Proof.
  unfold checkAndCrank.
  destruct (isComplete r && negb (isInitializingRound refs)).
  { destruct (connected && _); cbn; discriminate. }
  destruct (now - lastCrankAttempt refs <? 15000); [discriminate|].
  destruct isProcessing; [discriminate|].
  destruct (shouldAdvanceEpoch r now || shouldFinalize r now) eqn:Hor;
    [|discriminate].
  intros _. split; [|reflexivity]. apply orb_true_iff, Hor.
Qed.



End CrankCheck.

Section CrankClaims.
Import AutoCrank.


(** C1.  The client flags a finalizing crank exactly when the stored
    epoch is at least 3, the clock has reached [startEpoch + 3 *
    epochDuration] and tickets were sold; the on-chain crank completes a
    round only under the same three conditions; hence no reachable round
    state is complete with zero tickets sold, and a round with zero
    tickets stays open (and keeps zero tickets) under any sequence of
    cranks, that is, until a deposit arrives. *)
Theorem finalize_only_with_tickets (r r' : RoundState) (now seed : Z)
    (batch : list UserAccount) (st : Chain.State) (ops : list Chain.Op) :
  Chain.reachable st ->
  forallb Chain.isCrank ops = true ->
  (shouldFinalize r now = true <->
     3 <= epochInRound r
     /\ startEpoch r + 3 * (EPOCH_DURATION_SECONDS * 1000) <= now
     /\ 0 < totalTicketsSold r)
  /\ (Chain.crank now seed batch r = Chain.Ok r' ->
      isComplete r = false -> isComplete r' = true ->
      3 <= epochInRound r'
      /\ startEpoch r' + 3 * Chain.epochDuration <= now
      /\ 0 < totalTicketsSold r')
  /\ (isComplete (Chain.round st) = true ->
      0 < totalTicketsSold (Chain.round st))
  /\ (totalTicketsSold (Chain.round st) = 0 ->
      totalTicketsSold (Chain.round (Chain.steps ops st)) = 0
      /\ isComplete (Chain.round (Chain.steps ops st)) = false).
Proof.
  intros Hreach Hcranks.
  split; [apply shouldFinalize_true|].
  split.
  { intros Hc Hopen Hdone.
    apply crank_Ok in Hc as (Ht & Hs & He & [[Hsame _]|Hfin]);
      [congruence|].
    rewrite Hs, Ht. tauto. }
  split; [apply reachable_complete, Hreach|].
  intros H0. apply cranks_keep_open; [exact Hcranks|exact H0|].
  destruct (isComplete (Chain.round st)) eqn:Hc; [|reflexivity].
  apply (reachable_complete _ Hreach) in Hc. lia.
Qed.

(** C2.  For [now >= startEpoch] the check computes the target epoch
    [min(floor((now - startEpoch) / epochDuration) + 1, 3)]; it lies in
    [1, 3] and does not decrease when [now] grows; the check flags an
    epoch advance exactly when the target exceeds the stored epoch, and
    a crank call is made only when an advance or a finalization is
    flagged; the stored epoch never decreases along any sequence of
    calls on the round. *)
Theorem expectedEpoch_correct (connected isProcessing rpcOk : bool)
    (r : RoundState) (refs : Refs) (now now' seedNow : Z)
    (st : Chain.State) (ops : list Chain.Op) :
  startEpoch r <= now ->
  now <= now' ->
  expectedEpoch r now
    = Z.min ((now - startEpoch r) / (EPOCH_DURATION_SECONDS * 1000) + 1) 3
  /\ 1 <= expectedEpoch r now <= 3
  /\ expectedEpoch r now <= expectedEpoch r now'
  /\ (shouldAdvanceEpoch r now = true <->
      epochInRound r < expectedEpoch r now)
  /\ ((checkAndCrank connected isProcessing r refs now seedNow rpcOk).1
        = Some CallCrank ->
      epochInRound r < expectedEpoch r now \/ shouldFinalize r now = true)
  /\ epochInRound (Chain.advance now r)
     = Z.max (epochInRound r) (expectedEpoch r now)
  /\ epochInRound (Chain.round st)
     <= epochInRound (Chain.round (Chain.steps ops st)).
Proof.
  intros Hstart Hle.
  split; [reflexivity|].
  split; [apply expectedEpoch_range, Hstart|].
  split; [apply expectedEpoch_mono, Hle|].
  split; [apply Z.ltb_lt|].
  split.
  { intros Hcall. apply checkAndCrank_CallCrank in Hcall as [[Ha|Hf] _].
    - left. apply Z.ltb_lt, Ha.
    - right. exact Hf. }
  split; [apply advance_fields|apply steps_epoch].
Qed.


End CrankClaims.

(** ** Ticket arithmetic and the deposit validation *)
Section TicketClaims.
Import Number Tickets Hooks.

(** The literal [0.01] is the correctly rounded quotient 1/100. *)
Lemma TICKET_PRICE_SOL_literal :
  TICKET_PRICE_SOL = div (of_Z 1) (of_Z 100).
Proof. vm_compute. reflexivity. Qed.


(** Scenario 1 on the client: 0.05 converts to 5 tickets. *)
Lemma solToTickets_five :
  to_Z (solToTickets (div (of_Z 5) (of_Z 100))) = Some 5
  /\ to_Z (solToTickets (ticketsToSol (of_Z 5))) = Some 5.
Proof. split; vm_compute; reflexivity. Qed.

(** The range a successful on-chain deposit assigns has as many tickets
    as the amount buys, and starts where the round's count stood. *)
Lemma deposit_range now seed batch identity amount st st' :
  Chain.deposit now seed batch identity amount st = Chain.Ok st' ->
  exists u r,
    Chain.ledger st' !! identity = Some u
    /\ Chain.crank now seed batch (Chain.round st) = Chain.Ok r
    /\ ticketStart u = totalTicketsSold r
    /\ ticketEnd u - ticketStart u + 1 = amount / Chain.ticketPrice
    /\ totalTicketsSold (Chain.round st')
       = totalTicketsSold r + amount / Chain.ticketPrice.
Proof.
  unfold Chain.deposit. intros H.
  destruct (_ || _); [discriminate|].
  destruct (Chain.crank now seed batch (Chain.round st)) as [r|e];
    [|discriminate].
  destruct (isComplete r); [discriminate|].
  destruct (epochInRound r =? 3); [discriminate|].
  destruct (Chain.U64_MAX <? _); [discriminate|].
  injection H as <-. eexists _, r. cbn.
  rewrite lookup_insert_eq.
  split; [reflexivity|]. cbn. repeat split; lia.
Qed.

(** C3.  The code at 29 tickets: [ticketsToSol(29)] is the number 0.29,
    which passes the deposit validation, and [solToTickets] takes it to
    28, not back to 29; the integer conversion in lamports does return
    29. *)
Theorem solToTickets_ticketsToSol_29 :
  ticketsToSol (of_Z 29) = div (of_Z 29) (of_Z 100)
  /\ isValidTicketAmount (ticketsToSol (of_Z 29)) = true
  /\ solToTickets (ticketsToSol (of_Z 29)) = of_Z 28
  /\ to_Z (solToTickets (ticketsToSol (of_Z 29))) = Some 28
  /\ lamportsToTickets (ticketsToLamports 29) = 29.
Proof. repeat split; vm_compute; reflexivity. Qed.







End TicketClaims.

(** ** The purchase gate *)
Section PurchaseGate.
Import StakingRaffle.

(** On an open round in epoch 1 or 2 the purchase goes on to the
    confirmation dialog. *)
Lemma handleBuyClick_open r v :
  epochInRound r < 3 -> isComplete r = false ->
  handleBuyClick (Some r) v = (setShowConfirmation true v, []).
Proof.
  intros He Hc. unfold handleBuyClick, canDeposit, epochStatus,
    currentEpochInRound, roundIsComplete. cbn. rewrite Hc.
  destruct (Z.ltb_spec (epochInRound r) 3); [|lia].
  destruct (Z.leb_spec 3 (epochInRound r)); [lia|]. reflexivity.
Qed.


End PurchaseGate.

(** ** Winner selection and its seed *)
Section Selection.
Import Chain.

Lemma select_Some seed ticketCount batch w :
  select seed ticketCount batch = Some w <->
  exists r, List.find (holds (winningTicketOf seed ticketCount)) batch
            = Some r /\ owner r = w.
Proof.
  unfold select.
  destruct (List.find _ batch) as [r|]; cbn.
  - split; [intros [= <-]; eauto|intros (r' & [= <-] & <-); reflexivity].
  - split; [discriminate|intros (r' & [=] & _)].
Qed.

Lemma holds_range ticket r :
  holds ticket r = true <-> ticketStart r <= ticket <= ticketEnd r.
Proof. unfold holds. rewrite andb_true_iff, !Z.leb_le. tauto. Qed.

(** With one owner per ticket, the winner depends on the records of the
    batch, not on the order they are supplied in. *)
Lemma select_permutation seed ticketCount batch batch' :
  sameOwnerPerTicket batch -> batch ≡ₚ batch' ->
  select seed ticketCount batch = select seed ticketCount batch'.
Proof.
  intros Hone Hperm. unfold select.
  set (t := winningTicketOf seed ticketCount).
  destruct (List.find (holds t) batch) as [r|] eqn:Hf;
    destruct (List.find (holds t) batch') as [r'|] eqn:Hf'; cbn.
  - apply find_some in Hf as [Hin Hh]. apply find_some in Hf' as [Hin' Hh'].
    apply list_elem_of_In in Hin, Hin'. rewrite <- Hperm in Hin'.
    f_equal. eapply Hone; eassumption.
  - apply find_some in Hf as [Hin Hh].
    apply list_elem_of_In in Hin. rewrite Hperm in Hin.
    apply list_elem_of_In in Hin.
    pose proof (find_none _ _ Hf' _ Hin). congruence.
  - apply find_some in Hf' as [Hin' Hh'].
    apply list_elem_of_In in Hin'. rewrite <- Hperm in Hin'.
    apply list_elem_of_In in Hin'.
    pose proof (find_none _ _ Hf _ Hin'). congruence.
  - reflexivity.
Qed.

(** C7.  Winner selection computes [winningTicket = seed mod
    ticketCount], which lies in [0, ticketCount), and returns the
    identity of a record of the batch whose range contains it (none when
    no record does); the result is a function of its inputs alone: equal
    inputs give the equal winner, seeds with the same remainder give the
    same winner, and with one owner per ticket the order of the batch
    does not matter.  With 15 tickets (A: 0-9, B: 10-14) and seed
    123456789 the winning ticket is 9 and the winner is A. *)
Theorem select_deterministic (seed seed' ticketCount : Z)
    (batch batch' : list UserAccount) (w : string) :
  winningTicketOf seed ticketCount = seed mod ticketCount
  /\ (0 < ticketCount -> 0 <= winningTicketOf seed ticketCount < ticketCount)
  /\ (select seed ticketCount batch = Some w ->
      exists r, r ∈ batch /\ owner r = w
                /\ ticketStart r <= seed mod ticketCount <= ticketEnd r)
  /\ (select seed ticketCount batch = None ->
      forall r, r ∈ batch ->
                ~ ticketStart r <= seed mod ticketCount <= ticketEnd r)
  /\ (seed = seed' -> batch = batch' ->
      select seed ticketCount batch = select seed' ticketCount batch')
  /\ (seed mod ticketCount = seed' mod ticketCount ->
      select seed ticketCount batch = select seed' ticketCount batch)
  /\ (sameOwnerPerTicket batch -> batch ≡ₚ batch' ->
      select seed ticketCount batch = select seed ticketCount batch')
  /\ winningTicketOf 123456789 15 = 9
  /\ select 123456789 15 scenarioLedger = Some "A".
Proof.
  split; [reflexivity|].
  split; [intros Hpos; apply Z.mod_pos_bound, Hpos|].
  split.
  { intros (r & Hf & Ho)%select_Some.
    apply find_some in Hf as [Hin Hh].
    exists r. split; [apply list_elem_of_In, Hin|].
    split; [exact Ho|]. apply holds_range, Hh. }
  split.
  { unfold select. intros Hnone r Hin Hrange.
    destruct (List.find _ batch) eqn:Hf; [discriminate|].
    apply list_elem_of_In in Hin.
    pose proof (find_none _ _ Hf _ Hin) as Hh.
    apply holds_range in Hrange.
    unfold winningTicketOf in Hh. congruence. }
  split; [intros -> ->; reflexivity|].
  split; [unfold select, winningTicketOf; intros ->; reflexivity|].
  split; [apply select_permutation|].
  split; reflexivity.
Qed.


End Selection.

(** ** Pending prizes *)
Section PendingPrizes.

Lemma toNumber_Some bn n : toNumber bn = Some n -> n = bn.
Proof. unfold toNumber. destruct (bn <? 2 ^ 53); congruence. Qed.

Lemma claimTicketRounds_elem cur i :
  i ∈ claimTicketRounds cur <-> Z.max 1 (cur - 10) <= i <= cur.
Proof. unfold claimTicketRounds. rewrite elem_of_seqZ. lia. Qed.

(** A ticket the loop keeps is the stored account, unclaimed. *)
Lemma fetchClaimTicket_Some store pk i t :
  fetchClaimTicket store pk i = Some t ->
  store !! (i, pk) = Some t /\ claimed t = false.
Proof.
  unfold fetchClaimTicket.
  destruct (store !! (i, pk)) as [raw|]; cbn; [|discriminate].
  destruct (claimed raw) eqn:Hc; cbn; [discriminate|].
  destruct (toNumber (ct_roundId raw)) as [r|] eqn:Hr; cbn; [|discriminate].
  destruct (toNumber (prizeAmount raw)) as [p|] eqn:Hp; cbn;
    [|discriminate].
  destruct (toNumber (stakeAmount raw)) as [k|] eqn:Hk; cbn;
    [|discriminate].
  apply toNumber_Some in Hr, Hp, Hk. subst. intros [= <-].
  destruct raw; cbn in *. subst. split; reflexivity.
Qed.

(** C9.  Every ticket in the list of pending prizes handed to the
    connected identity is unclaimed, belongs to that identity and has a
    round number in [max(1, currentRound - 10), currentRound]; a ticket
    that is already claimed, or whose round lies more than 10 rounds
    before the current one, is not in the list. *)
Theorem pending_prizes_window (store : claimTicketStore) (pk : string)
    (protocol : ProtocolState) (tickets : list ClaimTicket)
    (t : ClaimTicket) :
  addressed store ->
  fetchClaimTickets store (Some pk) (Some protocol) = Some tickets ->
  t ∈ tickets ->
  claimed t = false
  /\ Z.max 1 (currentRound protocol - 10) <= ct_roundId t
     <= currentRound protocol
  /\ ct_winner t = pk
  /\ store !! (ct_roundId t, pk) = Some t
  /\ (forall i raw,
        store !! (i, pk) = Some raw ->
        claimed raw = true \/ i < currentRound protocol - 10 ->
        (raw ∉ tickets)
        /\ (forall t', t' ∈ tickets -> ct_roundId t' <> i)).
Proof.
  intros Hwf Hfetch Hin. unfold fetchClaimTickets in Hfetch.
  cbn in Hfetch.
  destruct (toNumber (currentRound protocol)) as [cur|] eqn:Hcur;
    cbn in Hfetch; [|discriminate].
  apply toNumber_Some in Hcur. subst cur. injection Hfetch as <-.
  assert (Hkept : forall t', t' ∈ omap (fetchClaimTicket store pk)
                                 (claimTicketRounds (currentRound protocol)) ->
            claimed t' = false
            /\ Z.max 1 (currentRound protocol - 10) <= ct_roundId t'
               <= currentRound protocol
            /\ ct_winner t' = pk
            /\ store !! (ct_roundId t', pk) = Some t').
  { intros t' (i & Hi & Hf)%list_elem_of_omap.
    apply claimTicketRounds_elem in Hi.
    apply fetchClaimTicket_Some in Hf as [Hs Hc].
    destruct (Hwf _ _ _ Hs) as [Hr Hw]. rewrite Hr.
    repeat split; try assumption; lia. }
  destruct (Hkept t Hin) as (Hc & Hr & Hw & Hs).
  split; [exact Hc|]. split; [exact Hr|].
  split; [exact Hw|]. split; [exact Hs|].
  intros i raw Hraw Hout. split.
  - intros Hin'. destruct (Hkept raw Hin') as (Hc' & Hr' & _ & _).
    destruct (Hwf _ _ _ Hraw) as [Hi _].
    destruct Hout; [congruence|lia].
  - intros t' Hin' Heq.
    destruct (Hkept t' Hin') as (Hc' & Hr' & _ & Hs').
    rewrite Heq, Hraw in Hs'. injection Hs' as ->.
    destruct Hout; [congruence|lia].
Qed.

End PendingPrizes.

(** ** Participants of a round *)
Section Participants.
Import Hooks.

Lemma toNumber_safe bn : bn < 2 ^ 53 -> toNumber bn = Some bn.
Proof.
  intros H. unfold toNumber.
  destruct (Z.ltb_spec bn (2 ^ 53)); [reflexivity|lia].
Qed.


Lemma collectParticipants_filter accounts roundId :
  Forall (fun a => safeAccount a.2) accounts ->
  Scripts.collectParticipants accounts roundId
  = Some (map Scripts.info (filter (isParticipant roundId) accounts)).
Proof.
  induction 1 as [|[pk acc] rest (Hr & Hb & Hs & He) _ IH]; [reflexivity|].
  rewrite filter_cons. cbn [Scripts.collectParticipants].
  cbn in Hr, Hb, Hs, He.
  rewrite (toNumber_safe _ Hr), (toNumber_safe _ Hb), IH.
  cbn.
  destruct (Z.eqb_spec (roundJoined acc) roundId) as [Heq|Hne]; cbn.
  - destruct (Z.ltb_spec 0 (balance acc)); cbn.
    + rewrite (toNumber_safe _ Hs), (toNumber_safe _ He). cbn.
      rewrite decide_True by (unfold isParticipant; cbn; lia). reflexivity.
    + rewrite decide_False by (unfold isParticipant; cbn; lia). reflexivity.
  - rewrite decide_False by (unfold isParticipant; cbn; lia). reflexivity.
Qed.


End Participants.

(** ** The theorems at concrete inputs *)
Section Instances.
Import AutoCrank.

(** A fresh round, cranked once long after its third epoch, is still
    open: it has sold no ticket. *)
Lemma finalize_only_with_tickets_witness :
  let r := Chain.newRound 1 0 "stake" in
  let st := {| Chain.round := r; Chain.ledger := ∅ |} in
  let ops := [Chain.OpCrank 400000 7 []] in
  Chain.reachable st
  /\ forallb Chain.isCrank ops = true
  /\ totalTicketsSold (Chain.round (Chain.steps ops st)) = 0
  /\ isComplete (Chain.round (Chain.steps ops st)) = false.
Proof.
  intros r st ops.
  assert (Hreach : Chain.reachable st) by apply Chain.reachable_new.
  split; [exact Hreach|]. split; [reflexivity|].
  destruct (finalize_only_with_tickets r r 400000 7 [] st ops Hreach
              eq_refl) as (_ & _ & _ & Hopen).
  apply Hopen. reflexivity.
Defined.

(** 121 s into a round that is stored in epoch 1 (scenario 3). *)
Lemma expectedEpoch_correct_witness :
  let r := Chain.newRound 1 1000 "stake" in
  startEpoch r <= 122000
  /\ 122000 <= 400000
  /\ 1 <= expectedEpoch r 122000 <= 3
  /\ expectedEpoch r 122000 <= expectedEpoch r 400000
  /\ epochInRound (Chain.advance 122000 r) = 2.
Proof.
  intros r.
  assert (H1 : startEpoch r <= 122000) by (cbn; lia).
  assert (H2 : 122000 <= 400000) by lia.
  split; [exact H1|]. split; [exact H2|].
  destruct (expectedEpoch_correct true false true r
              {| lastCrankAttempt := 0; lastRoundInitAttempt := 0;
                 isInitializingRound := false |}
              122000 400000 122000
              {| Chain.round := r; Chain.ledger := ∅ |} [] H1 H2)
    as (_ & Hrange & Hmono & _ & _ & Hadv & _).
  split; [exact Hrange|]. split; [exact Hmono|]. exact Hadv.
Defined.




(** Scenario 4 with the batch supplied in either order. *)
Lemma select_deterministic_witness :
  let swapped := [Chain.holder "B" 10 14; Chain.holder "A" 0 9] in
  Chain.sameOwnerPerTicket Chain.scenarioLedger
  /\ Chain.scenarioLedger ≡ₚ swapped
  /\ 0 < 15
  /\ 0 <= Chain.winningTicketOf 123456789 15 < 15
  /\ Chain.select 123456789 15 Chain.scenarioLedger
     = Chain.select 123456789 15 swapped.
Proof.
  intros swapped.
  assert (Hone : Chain.sameOwnerPerTicket Chain.scenarioLedger).
  { intros r1 r2 ticket H1 H2 Hh1 Hh2.
    apply holds_range in Hh1, Hh2.
    unfold Chain.scenarioLedger in H1, H2.
    apply elem_of_cons in H1 as [->|H1], H2 as [->|H2];
      try apply list_elem_of_singleton in H1;
      try apply list_elem_of_singleton in H2;
      subst; cbn in *; try reflexivity; lia. }
  assert (Hperm : Chain.scenarioLedger ≡ₚ swapped) by apply perm_swap.
  assert (Hpos : 0 < 15) by lia.
  destruct (select_deterministic 123456789 123456789 15
              Chain.scenarioLedger swapped "A")
    as (_ & Hrange & _ & _ & _ & _ & Horder & _).
  split; [exact Hone|]. split; [exact Hperm|]. split; [exact Hpos|].
  split; [exact (Hrange Hpos)|]. exact (Horder Hone Hperm).
Defined.


(** One unclaimed ticket of round 3, seen from round 5. *)
Lemma pending_prizes_window_witness :
  let t := {| ct_roundId := 3; ct_winner := "W"; prizeAmount := 1000;
              stakeAmount := 50000000; claimed := false; ct_bump := 255 |} in
  let store : claimTicketStore := {[ (3, "W") := t ]} in
  let protocol := {| admin := "admin"; validator := "validator";
                     currentRound := 5; prizeSeedAmount := 0;
                     totalUnclaimedPrizes := 1000; ps_bump := 254 |} in
  addressed store
  /\ fetchClaimTickets store (Some "W") (Some protocol) = Some [t]
  /\ t ∈ [t]
  /\ claimed t = false
  /\ Z.max 1 (currentRound protocol - 10) <= ct_roundId t
     <= currentRound protocol.
Proof.
  intros t store protocol.
  assert (Hwf : addressed store).
  { intros i pk t' Hl.
    apply lookup_singleton_Some in Hl as [[= <- <-] <-].
    split; reflexivity. }
  assert (Hfetch : fetchClaimTickets store (Some "W") (Some protocol)
                   = Some [t]) by (vm_compute; reflexivity).
  assert (Hin : t ∈ [t]) by apply list_elem_of_here.
  destruct (pending_prizes_window store "W" protocol [t] t Hwf Hfetch Hin)
    as (Hc & Hr & _).
  split; [exact Hwf|]. split; [exact Hfetch|]. split; [exact Hin|].
  split; [exact Hc|exact Hr].
Defined.


End Instances.

(** * Further properties of the client code *)

(** ** Lamport conversions *)
Section LamportConversions.
Import Tickets.


End LamportConversions.

(** ** The interval of the automatic crank *)
Section CrankInterval.
Import AutoCrank AutoCrankRun.

(** One check either makes no call and leaves the refs alone, or requests
    a crank at least 15 s after the last attempt, or initializes a round
    more than 10 s after the last attempt; it stamps the attempt it made
    and keeps the other stamp. *)
Lemma checkAndCrank_stamps connected isProcessing r refs now seedNow rpcOk :
  let out := checkAndCrank connected isProcessing r refs now seedNow rpcOk in
  (out.1 = None /\ out.2 = refs)
  \/ (out.1 = Some CallCrank
      /\ 15000 <= now - lastCrankAttempt refs
      /\ lastCrankAttempt out.2 = now
      /\ lastRoundInitAttempt out.2 = lastRoundInitAttempt refs)
  \/ (exists id seed, out.1 = Some (InitRound id seed)
      /\ 10001 <= now - lastRoundInitAttempt refs
      /\ lastRoundInitAttempt out.2 = now
      /\ lastCrankAttempt out.2 = lastCrankAttempt refs).
Proof.
  unfold checkAndCrank.
  destruct (isComplete r && negb (isInitializingRound refs)).
  - destruct connected; cbn [andb]; [|left; split; reflexivity].
    destruct (Z.ltb_spec 10000 (now - lastRoundInitAttempt refs)); cbn.
    + right. right. eexists _, _. repeat split; lia.
    + left. split; reflexivity.
  - destruct (Z.ltb_spec (now - lastCrankAttempt refs) 15000);
      [left; split; reflexivity|].
    destruct isProcessing; [left; split; reflexivity|].
    destruct (_ || _); cbn; [|left; split; reflexivity].
    right. left. repeat split; lia.
Qed.

Lemma clearInitializing_stamps fired refs :
  lastCrankAttempt (clearInitializing fired refs) = lastCrankAttempt refs
  /\ lastRoundInitAttempt (clearInitializing fired refs)
     = lastRoundInitAttempt refs.
Proof. destruct fired; split; reflexivity. Qed.

(** X2.  Along any sequence of checks, whatever the round states, the
    wallet and the clock readings: each crank request comes at least 15 s
    after the previous one (and after the stored last attempt), and each
    round initialization more than 10 s after the previous one. *)
Theorem crank_requests_spaced (refs : Refs) (ticks : list Tick) :
  spacedFrom 15000 (lastCrankAttempt refs)
    (omap crankTime (runChecks refs ticks))
  /\ spacedFrom 10001 (lastRoundInitAttempt refs)
       (omap initTime (runChecks refs ticks)).
Proof.
  revert refs. induction ticks as [|k rest IH]; intros refs; [split; exact I|].
  cbn [runChecks].
  destruct (clearInitializing_stamps (t_timerFired k) refs) as [Hc Hi].
  set (refs0 := clearInitializing (t_timerFired k) refs) in *.
  pose proof (checkAndCrank_stamps (t_connected k) (t_isProcessing k)
                (t_roundState k) refs0 (t_now k) (t_seedNow k) (t_rpcOk k))
    as Hcases.
  cbv zeta in Hcases.
  set (out := checkAndCrank _ _ _ refs0 _ _ _) in *.
  destruct (IH out.2) as [IHc IHi].
  destruct Hcases as [[Hnone Hrefs]|[(Hcall & Hgap & Hnew & Hkeep)
                                    |(id & seed & Hcall & Hgap & Hnew & Hkeep)]].
  - rewrite Hnone. rewrite Hrefs in IHc, IHi |- *.
    rewrite <- Hc, <- Hi. split; assumption.
  - rewrite Hcall. cbn. rewrite Hnew in IHc. rewrite Hkeep in IHi.
    rewrite <- Hc, <- Hi. repeat split; assumption.
  - rewrite Hcall. cbn. rewrite Hnew in IHi. rewrite Hkeep in IHc.
    rewrite <- Hc, <- Hi. repeat split; assumption.
Qed.

End CrankInterval.

(** ** The countdown *)
Section Countdown.
Import RaffleView.

(** X3.  The countdown splits the whole seconds left until the end of the
    stored epoch into hours, minutes below 60 and seconds below 60 that
    add up to them again; it reads zero exactly when less than one second
    is left; and inside a round of at most three epochs it never shows an
    hour or more than six minutes. *)
Theorem timeRemaining_decomposes (r : RoundState) (now : Z) :
  let t := calculateTimeRemaining r now in
  let left := startEpoch r + epochInRound r * 120000 - now in
  totalSeconds t = Z.max 0 left / 1000
  /\ 0 <= hours t
  /\ 0 <= minutes t < 60
  /\ 0 <= seconds t < 60
  /\ (t = noTime <-> left < 1000)
  /\ (startEpoch r <= now -> epochInRound r <= 3 ->
      hours t = 0 /\ minutes t <= 6).
Proof.
  intros t left.
  assert (Hleft : startEpoch r
                  + epochInRound r * EPOCH_DURATION_SECONDS * 1000 - now
                  = left)
    by (unfold left, EPOCH_DURATION_SECONDS; lia).
  set (s := Z.max 0 left / 1000).
  assert (Hs : 0 <= s) by (apply Z.div_pos; lia).
  assert (Ht : t = {| hours := s / 3600; minutes := (s mod 3600) / 60;
                      seconds := s mod 60 |}).
  { unfold t, calculateTimeRemaining. cbv zeta. rewrite Hleft. reflexivity. }
  pose proof (Z.div_mod s 3600 ltac:(lia)) as H1.
  pose proof (Z.mod_pos_bound s 3600 ltac:(lia)) as B1.
  pose proof (Z.div_mod (s mod 3600) 60 ltac:(lia)) as H2.
  pose proof (Z.mod_pos_bound (s mod 3600) 60 ltac:(lia)) as B2.
  pose proof (Z.mod_pos_bound s 60 ltac:(lia)) as B3.
  assert (H3 : (s mod 3600) mod 60 = s mod 60).
  { apply Z.mod_mod_divide. exists 60. reflexivity. }
  assert (Hh : 0 <= s / 3600) by (apply Z.div_pos; lia).
  assert (Hm : 0 <= (s mod 3600) / 60 < 60).
  { split; [apply Z.div_pos; lia|]. apply Z.div_lt_upper_bound; lia. }
  rewrite Ht. unfold totalSeconds. cbn.
  split; [lia|]. split; [exact Hh|]. split; [exact Hm|]. split; [exact B3|].
  split.
  - split.
    + intros [= E1 E2 E3].
      assert (s = 0) by lia.
      destruct (Z.lt_ge_cases left 1000) as [|Hge]; [assumption|].
      assert (1 <= s); [|lia].
      unfold s. apply Z.div_le_lower_bound; lia.
    + intros Hlt.
      assert (Hz : s = 0).
      { unfold s. apply Z.div_small. lia. }
      rewrite Hz. reflexivity.
  - intros Hstart Hep.
    assert (Hle : s <= 360).
    { unfold s. apply Z.div_le_upper_bound; lia. }
    assert (Hh0 : s / 3600 = 0) by (apply Z.div_small; lia).
    split; [exact Hh0|].
    rewrite Z.mod_small by lia.
    apply Z.div_le_upper_bound; lia.
Qed.

Lemma timeRemaining_decomposes_witness :
  let r := Chain.newRound 1 1000 "stake" in
  let t := calculateTimeRemaining r 31000 in
  startEpoch r <= 31000 /\ epochInRound r <= 3
  /\ hours t = 0 /\ minutes t <= 6.
Proof.
  intros r t.
  assert (H1 : startEpoch r <= 31000) by (cbn; lia).
  assert (H2 : epochInRound r <= 3) by (cbn; lia).
  destruct (timeRemaining_decomposes r 31000) as (_ & _ & _ & _ & _ & H).
  split; [exact H1|]. split; [exact H2|]. exact (H H1 H2).
Defined.

Lemma countdownTick_step t :
  wellFormed t ->
  wellFormed (countdownTick t)
  /\ totalSeconds (countdownTick t) = Z.max 0 (totalSeconds t - 1).
Proof.
  intros (Hh & Hm & Hs). unfold countdownTick, wellFormed, totalSeconds.
  destruct (Z.ltb_spec (seconds t - 1) 0); cbn; [|lia].
  destruct (Z.ltb_spec (minutes t - 1) 0); cbn; [|lia].
  destruct (Z.ltb_spec (hours t - 1) 0); cbn; lia.
Qed.

(** X4.  On a well-formed reading (hours not negative, minutes and seconds
    in 0..59) [n] ticks of the one-second countdown take [n] seconds off
    the time shown and stop at zero; the reading stays well-formed. *)
Theorem countdownTick_counts_down (t : TimeRemaining) (n : nat) :
  0 <= hours t -> 0 <= minutes t < 60 -> 0 <= seconds t < 60 ->
  totalSeconds (Nat.iter n countdownTick t)
  = Z.max 0 (totalSeconds t - Z.of_nat n)
  /\ 0 <= hours (Nat.iter n countdownTick t)
  /\ 0 <= minutes (Nat.iter n countdownTick t) < 60
  /\ 0 <= seconds (Nat.iter n countdownTick t) < 60.
Proof.
  intros Hh Hm Hs.
  assert (Hwf : wellFormed t) by (unfold wellFormed; tauto).
  assert (Htot : 0 <= totalSeconds t) by (unfold totalSeconds; lia).
  assert (H : wellFormed (Nat.iter n countdownTick t)
              /\ totalSeconds (Nat.iter n countdownTick t)
                 = Z.max 0 (totalSeconds t - Z.of_nat n)).
  { induction n as [|n [IHw IHt]]; [cbn; split; [exact Hwf|lia]|].
    change (Nat.iter (S n) countdownTick t)
      with (countdownTick (Nat.iter n countdownTick t)).
    destruct (countdownTick_step _ IHw) as [Hw' Ht'].
    split; [exact Hw'|]. rewrite Ht', IHt. lia. }
  destruct H as [(H1 & H2 & H3) H4]. tauto.
Qed.

Lemma countdownTick_counts_down_witness :
  let t := {| hours := 0; minutes := 2; seconds := 0 |} in
  0 <= hours t /\ 0 <= minutes t < 60 /\ 0 <= seconds t < 60
  /\ totalSeconds (Nat.iter 121 countdownTick t) = 0.
Proof.
  intros t.
  assert (H1 : 0 <= hours t) by (cbn; lia).
  assert (H2 : 0 <= minutes t < 60) by (cbn; lia).
  assert (H3 : 0 <= seconds t < 60) by (cbn; lia).
  destruct (countdownTick_counts_down t 121 H1 H2 H3) as (H & _).
  split; [exact H1|]. split; [exact H2|]. split; [exact H3|]. exact H.
Defined.

(** X5.  In an open round stored in epoch 1 or 2, the automatic crank
    flags an epoch advance exactly from the instant the countdown aims at,
    the end of the stored epoch; from then on the countdown reads zero
    and the banner 'AUTO-ADVANCING EPOCH' is shown. *)
Theorem countdown_zero_when_advance_due (r : RoundState) (now : Z) :
  isComplete r = false ->
  epochInRound r < 3 ->
  (AutoCrank.shouldAdvanceEpoch r now = true
   <-> startEpoch r + epochInRound r * 120000 <= now)
  /\ (AutoCrank.shouldAdvanceEpoch r now = true ->
      timeRemainingOf (Some r) now = noTime
      /\ showsAutoAdvancing (Some r) (timeRemainingOf (Some r) now) = true).
Proof.
  intros Hopen He.
  assert (Hiff : AutoCrank.shouldAdvanceEpoch r now = true
                 <-> startEpoch r + epochInRound r * 120000 <= now).
  { unfold AutoCrank.shouldAdvanceEpoch, AutoCrank.expectedEpoch,
      AutoCrank.epochsPassed, AutoCrank.elapsedMs,
      AutoCrank.EPOCH_DURATION_SECONDS.
    rewrite Z.ltb_lt. change (120 * 1000) with 120000.
    pose proof (Z.div_mod (now - startEpoch r) 120000 ltac:(lia)) as Hdm.
    pose proof (Z.mod_pos_bound (now - startEpoch r) 120000 ltac:(lia)).
    split; intros H0; nia. }
  split; [exact Hiff|].
  intros Hdue. apply Hiff in Hdue.
  assert (Hzero : timeRemainingOf (Some r) now = noTime).
  { unfold timeRemainingOf.
    destruct (_ || _); [reflexivity|].
    apply (timeRemaining_decomposes r now). lia. }
  split; [exact Hzero|]. rewrite Hzero.
  unfold showsAutoAdvancing, StakingRaffle.epochStatus,
    StakingRaffle.roundIsComplete, StakingRaffle.currentEpochInRound.
  cbn. rewrite Hopen.
  destruct (Z.leb_spec 3 (epochInRound r)); [lia|]. reflexivity.
Qed.

Lemma countdown_zero_when_advance_due_witness :
  let r := Chain.newRound 1 1000 "stake" in
  isComplete r = false /\ epochInRound r < 3
  /\ AutoCrank.shouldAdvanceEpoch r 121000 = true
  /\ timeRemainingOf (Some r) 121000 = noTime.
Proof.
  intros r.
  assert (H1 : isComplete r = false) by reflexivity.
  assert (H2 : epochInRound r < 3) by (cbn; lia).
  destruct (countdown_zero_when_advance_due r 121000 H1 H2) as (_ & H).
  assert (H3 : AutoCrank.shouldAdvanceEpoch r 121000 = true) by reflexivity.
  split; [exact H1|]. split; [exact H2|]. split; [exact H3|].
  exact (proj1 (H H3)).
Defined.

End Countdown.

(** ** The diagnostic script and the bot against the automatic crank *)
Section Keepers.
Import AutoCrank.

Lemma advance_due_iff r now :
  shouldAdvanceEpoch r now = true <->
  epochInRound r < 3 /\ startEpoch r + epochInRound r * 120000 <= now.
Proof.
  unfold shouldAdvanceEpoch, expectedEpoch, epochsPassed, elapsedMs,
    EPOCH_DURATION_SECONDS.
  rewrite Z.ltb_lt. change (120 * 1000) with 120000.
  pose proof (Z.div_mod (now - startEpoch r) 120000 ltac:(lia)) as Hdm.
  pose proof (Z.mod_pos_bound (now - startEpoch r) 120000 ltac:(lia)).
  split; [intros H0; split; nia|intros [H1 H2]; nia].
Qed.

(** X6.  The diagnostic script computes the expected epoch the hook
    computes.  Its warning 'Next epoch should have started' is raised
    exactly when the round is open and the hook flags an epoch advance;
    its warning 'Round should be finalized' is raised, on a round with
    tickets, exactly when the round is open and the hook flags a
    finalization; and its mismatch warning is raised whenever the hook
    flags an advance, and otherwise only when the stored epoch is ahead of
    the clock. *)
Theorem diagnostics_agree_with_hook (r : RoundState) (now : Z) :
  Diagnostics.expectedEpoch r now = expectedEpoch r now
  /\ (Diagnostics.nextEpochOverdue r now = true
      <-> isComplete r = false /\ shouldAdvanceEpoch r now = true)
  /\ (0 < totalTicketsSold r ->
      (Diagnostics.finalizationOverdue r now = true
       <-> isComplete r = false /\ shouldFinalize r now = true))
  /\ (shouldAdvanceEpoch r now = true ->
      Diagnostics.epochMismatch r now = true)
  /\ (Diagnostics.epochMismatch r now = true ->
      shouldAdvanceEpoch r now = true
      \/ expectedEpoch r now < epochInRound r).
Proof.
  assert (Hexp : Diagnostics.expectedEpoch r now = expectedEpoch r now)
    by reflexivity.
  split; [exact Hexp|].
  split.
  { rewrite advance_due_iff. unfold Diagnostics.nextEpochOverdue.
    cbv zeta. unfold Diagnostics.EPOCH_DURATION_MS.
    rewrite !andb_true_iff, negb_true_iff, Z.ltb_lt, Z.leb_le.
    intuition lia. }
  split.
  { intros Hpos. rewrite shouldFinalize_true.
    unfold Diagnostics.finalizationOverdue. cbv zeta.
    unfold Diagnostics.EPOCH_DURATION_MS, EPOCH_DURATION_SECONDS.
    rewrite !andb_true_iff, negb_true_iff, !Z.leb_le. intuition lia. }
  split.
  - unfold Diagnostics.epochMismatch, shouldAdvanceEpoch. rewrite Hexp.
    rewrite Z.ltb_lt, negb_true_iff, Z.eqb_neq. lia.
  - unfold Diagnostics.epochMismatch, shouldAdvanceEpoch. rewrite Hexp.
    rewrite Z.ltb_lt, negb_true_iff, Z.eqb_neq. lia.
Qed.

Lemma diagnostics_agree_with_hook_witness :
  let r := Chain.addTickets 5 50000000
             (Chain.setEpoch 3 (Chain.newRound 1 0 "stake")) in
  0 < totalTicketsSold r
  /\ isComplete r = false
  /\ shouldFinalize r 360000 = true
  /\ Diagnostics.finalizationOverdue r 360000 = true.
Proof.
  intros r.
  assert (Hpos : 0 < totalTicketsSold r) by (cbn; lia).
  destruct (diagnostics_agree_with_hook r 360000) as (_ & _ & Hfin & _).
  split; [exact Hpos|]. split; [reflexivity|]. split; [reflexivity|].
  apply (Hfin Hpos). split; reflexivity.
Defined.

(** The cycle of the bot on an open round, with its two deadlines written
    from the start of the round. *)
Lemma bot_open_round p r accounts now laterNow snapshotOk :
  0 < currentRound p < 2 ^ 53 ->
  isComplete r = false ->
  Bot.checkAndAct false (Some p) (Some r) accounts now laterNow snapshotOk
  = if epochInRound r <? 3 then
      if startEpoch r + epochInRound r * 120000 <=? now
      then [Bot.AdvanceEpoch] else []
    else if epochInRound r =? 3 then
      if startEpoch r + 360000 <=? now
      then Bot.snapshotAndSelect accounts (currentRound p) laterNow snapshotOk
      else []
    else [].
Proof.
  intros [Hcr Hsafe] Hopen. unfold Bot.checkAndAct. cbn [mbind option_bind].
  rewrite (toNumber_safe _ Hsafe).
  destruct (Z.eqb_spec (currentRound p) 0); [lia|].
  rewrite Hopen. cbv zeta. unfold Bot.EPOCH_DURATION_MS.
  destruct (Z.ltb_spec (epochInRound r) 3).
  - destruct (Z.leb_spec (startEpoch r + epochInRound r * 120000) now);
      destruct (Z.leb_spec (120000 - (now - (startEpoch r
                  + (epochInRound r - 1) * 120000))) 0);
      try reflexivity; lia.
  - destruct (Z.eqb_spec (epochInRound r) 3); [|reflexivity].
    destruct (Z.leb_spec (startEpoch r + 360000) now);
      destruct (Z.leb_spec (120000 - (now - (startEpoch r
                  + (epochInRound r - 1) * 120000))) 0);
      try reflexivity; lia.
Qed.

(** X7.  On an open round the bot and the hook agree on when to move on:
    in epoch 1 or 2 the bot sends [advanceEpoch] exactly when the hook
    flags an epoch advance, and nothing otherwise; in epoch 3 it starts
    the snapshot and the draw whenever the hook flags a finalization.
    Unlike the hook, it also starts them once epoch 3 has ended on a round
    that has sold no ticket. *)
Theorem bot_agrees_with_hook (p : ProtocolState) (r : RoundState)
    (accounts : Hooks.allAccounts) (now laterNow : Z) (snapshotOk : bool) :
  0 < currentRound p < 2 ^ 53 ->
  isComplete r = false ->
  (epochInRound r < 3 ->
   Bot.checkAndAct false (Some p) (Some r) accounts now laterNow snapshotOk
   = if shouldAdvanceEpoch r now then [Bot.AdvanceEpoch] else [])
  /\ (epochInRound r = 3 -> shouldFinalize r now = true ->
      Bot.checkAndAct false (Some p) (Some r) accounts now laterNow snapshotOk
      = Bot.snapshotAndSelect accounts (currentRound p) laterNow snapshotOk)
  /\ (epochInRound r = 3 -> startEpoch r + 360000 <= now ->
      totalTicketsSold r = 0 ->
      shouldFinalize r now = false
      /\ Bot.checkAndAct false (Some p) (Some r) accounts now laterNow
           snapshotOk
         = Bot.snapshotAndSelect accounts (currentRound p) laterNow
             snapshotOk).
Proof.
  intros Hcr Hopen.
  rewrite (bot_open_round p r accounts now laterNow snapshotOk Hcr Hopen).
  split.
  { intros He. destruct (Z.ltb_spec (epochInRound r) 3); [|lia].
    destruct (shouldAdvanceEpoch r now) eqn:Hadv.
    - apply advance_due_iff in Hadv as [_ Hdue].
      destruct (Z.leb_spec (startEpoch r + epochInRound r * 120000) now);
        [reflexivity|lia].
    - destruct (Z.leb_spec (startEpoch r + epochInRound r * 120000) now);
        [|reflexivity].
      assert (shouldAdvanceEpoch r now = true); [|congruence].
      apply advance_due_iff. lia. }
  assert (Hdraw : epochInRound r = 3 -> startEpoch r + 360000 <= now ->
    (if epochInRound r <? 3 then
       if startEpoch r + epochInRound r * 120000 <=? now
       then [Bot.AdvanceEpoch] else []
     else if epochInRound r =? 3 then
       if startEpoch r + 360000 <=? now
       then Bot.snapshotAndSelect accounts (currentRound p) laterNow
              snapshotOk
       else []
     else [])
    = Bot.snapshotAndSelect accounts (currentRound p) laterNow snapshotOk).
  { intros He Hend.
    destruct (Z.ltb_spec (epochInRound r) 3); [lia|].
    destruct (Z.eqb_spec (epochInRound r) 3); [|lia].
    destruct (Z.leb_spec (startEpoch r + 360000) now); [reflexivity|lia]. }
  split.
  - intros He (_ & Hend & _)%shouldFinalize_true.
    apply Hdraw; [exact He|]. unfold EPOCH_DURATION_SECONDS in Hend. lia.
  - intros He Hend H0. split; [|apply Hdraw; assumption].
    destruct (shouldFinalize r now) eqn:Hf; [|reflexivity].
    apply shouldFinalize_true in Hf. lia.
Qed.

Lemma bot_agrees_with_hook_witness :
  let p := {| admin := "admin"; validator := "validator";
              currentRound := 1; prizeSeedAmount := 0;
              totalUnclaimedPrizes := 0; ps_bump := 254 |} in
  let r := Chain.setEpoch 3 (Chain.newRound 1 0 "stake") in
  0 < currentRound p < 2 ^ 53
  /\ isComplete r = false
  /\ epochInRound r = 3
  /\ startEpoch r + 360000 <= 360000
  /\ totalTicketsSold r = 0
  /\ shouldFinalize r 360000 = false
  /\ Bot.checkAndAct false (Some p) (Some r) [] 360000 360001 true
     = [Bot.TakeSnapshotBatch []; Bot.SelectWinnerLocal 360001 []].
Proof.
  intros p r.
  assert (H1 : 0 < currentRound p < 2 ^ 53) by (cbn; lia).
  assert (H2 : isComplete r = false) by reflexivity.
  assert (H3 : epochInRound r = 3) by reflexivity.
  assert (H4 : startEpoch r + 360000 <= 360000) by (cbn; lia).
  assert (H5 : totalTicketsSold r = 0) by reflexivity.
  destruct (bot_agrees_with_hook p r [] 360000 360001 true H1 H2)
    as (_ & _ & H).
  destruct (H H3 H4 H5) as [Hf Hact].
  split; [exact H1|]. split; [exact H2|]. split; [exact H3|].
  split; [exact H4|]. split; [exact H5|]. split; [exact Hf|exact Hact].
Defined.



End Keepers.

(** ** The list of pending prizes, continued *)
Section PendingPrizesMore.








End PendingPrizesMore.

(** ** The batches of accounts sent along with a crank *)
Section Batches.
Import Hooks.

Lemma toNumber_overflow bn : 2 ^ 53 <= bn -> toNumber bn = None.
Proof.
  intros H. unfold toNumber.
  destruct (Z.ltb_spec bn (2 ^ 53)); [lia|reflexivity].
Qed.

Lemma participatingAccounts_filter accounts R :
  Forall (fun a => safeAccount a.2) accounts ->
  participatingAccounts accounts R
  = Some (filter (fun a => roundJoined a.2 = R) accounts).*1.
Proof.
  induction 1 as [|[pk acc] rest (Hr & _) _ IH]; [reflexivity|].
  rewrite filter_cons. cbn [participatingAccounts]. cbn in Hr.
  rewrite (toNumber_safe _ Hr), IH. cbn.
  destruct (Z.eqb_spec (roundJoined acc) R).
  - rewrite decide_True by assumption. reflexivity.
  - rewrite decide_False by assumption. reflexivity.
Qed.

(** X11.  The batch the frontend attaches to [crank] (and to the snapshot
    and the manual draw) holds, in account order, the address of every
    account that joined the round, whatever its balance; the batch the
    scripts build from [getParticipants] is a sub-list of it. *)
Theorem frontend_batch_includes_script_batch (accounts : allAccounts)
    (R : Z) :
  Forall (fun a => safeAccount a.2) accounts ->
  exists batch,
    participatingAccounts accounts R = Some batch
    /\ callCrank accounts R = Some (IxCrank batch)
    /\ batch = (filter (fun a => roundJoined a.2 = R) accounts).*1
    /\ (forall pk acc, (pk, acc) ∈ accounts -> roundJoined acc = R ->
                       pk ∈ batch)
    /\ Scripts.crankBatch accounts R `sublist_of` batch.
Proof.
  intros Hsafe.
  pose proof (participatingAccounts_filter accounts R Hsafe) as Hp.
  eexists. split; [exact Hp|].
  split; [unfold callCrank; rewrite Hp; reflexivity|].
  split; [reflexivity|].
  split.
  - intros pk acc Hin HR. apply list_elem_of_fmap. exists (pk, acc).
    split; [reflexivity|]. apply list_elem_of_filter. split; assumption.
  - unfold Scripts.crankBatch, Scripts.getParticipants.
    rewrite (collectParticipants_filter accounts R Hsafe). cbn.
    rewrite map_map. cbn.
    change (map (fun x : string * UserAccount => x.1)) with
      (fmap (M:=list) (fst : string * UserAccount -> string)).
    apply fmap_sublist.
    assert (Heq : filter (isParticipant R) accounts
                  = filter (fun a => 0 < balance a.2)
                      (filter (fun a => roundJoined a.2 = R) accounts)).
    { rewrite list_filter_filter. apply list_filter_iff.
      intros a. unfold isParticipant. tauto. }
    rewrite Heq. apply sublist_filter.
Qed.

Lemma frontend_batch_includes_script_batch_witness :
  let settled := Chain.credit 0 0 4 1 (Chain.newRecord "B") in
  let accounts : allAccounts :=
    [("addrA", Chain.holder "A" 0 9); ("addrB", settled)] in
  Forall (fun a => safeAccount a.2) accounts
  /\ participatingAccounts accounts 1 = Some ["addrA"; "addrB"]
  /\ Scripts.crankBatch accounts 1 = ["addrA"].
Proof.
  intros settled accounts.
  assert (Hsafe : Forall (fun a => safeAccount a.2) accounts).
  { repeat constructor; cbn; lia. }
  destruct (frontend_batch_includes_script_batch accounts 1 Hsafe)
    as (batch & Hb & _ & Heq & _).
  split; [exact Hsafe|]. split; [|vm_compute; reflexivity].
  rewrite Hb, Heq. vm_compute. reflexivity.
Defined.

Lemma collectParticipants_overflow accounts R pk acc :
  (pk, acc) ∈ accounts ->
  2 ^ 53 <= roundJoined acc \/ 2 ^ 53 <= balance acc ->
  Scripts.collectParticipants accounts R = None.
Proof.
  intros Hin Hbig. induction accounts as [|[pk' acc'] rest IH];
    [inversion Hin|].
  cbn [Scripts.collectParticipants].
  apply elem_of_cons in Hin as [[= <- <-]|Hin].
  - destruct Hbig as [Hbig|Hbig].
    + rewrite (toNumber_overflow _ Hbig). reflexivity.
    + destruct (toNumber (roundJoined acc)); [|reflexivity]. cbn.
      rewrite (toNumber_overflow _ Hbig). reflexivity.
  - rewrite (IH Hin).
    destruct (toNumber (roundJoined acc')); [|reflexivity]. cbn.
    destruct (toNumber (balance acc')); [|reflexivity]. cbn.
    destruct (_ && _); cbn; [|reflexivity].
    destruct (toNumber (ticketStart acc')); [|reflexivity]. cbn.
    destruct (toNumber (ticketEnd acc')); reflexivity.
Qed.

Lemma participants_overflow accounts R pk acc :
  (pk, acc) ∈ accounts ->
  2 ^ 53 <= roundJoined acc ->
  participants accounts R = None /\ participatingAccounts accounts R = None.
Proof.
  intros Hin Hbig. induction accounts as [|[pk' acc'] rest IH];
    [inversion Hin|].
  cbn [participants participatingAccounts].
  apply elem_of_cons in Hin as [[= <- <-]|Hin].
  - rewrite (toNumber_overflow _ Hbig). split; reflexivity.
  - destruct (IH Hin) as [-> ->].
    destruct (toNumber (roundJoined acc')); [|split; reflexivity]. cbn.
    split; [|reflexivity].
    destruct (_ =? R); cbn; [|reflexivity].
    destruct (toNumber (balance acc')); reflexivity.
Qed.

(** X12.  One account whose round or balance does not fit a JavaScript
    number empties the result for everybody: [getParticipants] returns no
    participant at all, its count is 0 and the batch built from it is
    empty, whatever the other accounts hold; when it is the round that
    does not fit, the hook counts 0 participants and [callCrank] sends no
    instruction. *)
Theorem participant_queries_swallow_overflow (accounts : allAccounts)
    (R : Z) (pk : string) (acc : UserAccount) :
  (pk, acc) ∈ accounts ->
  (2 ^ 53 <= roundJoined acc \/ 2 ^ 53 <= balance acc ->
   Scripts.getParticipants accounts R = []
   /\ Scripts.getParticipantCount accounts R = 0
   /\ Scripts.crankBatch accounts R = [])
  /\ (2 ^ 53 <= roundJoined acc ->
      participantCount true (Some R) accounts = 0
      /\ callCrank accounts R = None).
Proof.
  intros Hin. split.
  - intros Hbig.
    assert (Hg : Scripts.getParticipants accounts R = []).
    { unfold Scripts.getParticipants.
      rewrite (collectParticipants_overflow _ _ _ _ Hin Hbig). reflexivity. }
    unfold Scripts.getParticipantCount, Scripts.crankBatch. rewrite Hg.
    repeat split; reflexivity.
  - intros Hbig.
    destruct (participants_overflow _ R _ _ Hin Hbig) as [Hp Hb].
    unfold participantCount, callCrank. rewrite Hp, Hb.
    split; reflexivity.
Qed.

Lemma participant_queries_swallow_overflow_witness :
  let big := Chain.credit (2 ^ 53) 0 0 7 (Chain.newRecord "C") in
  let accounts : allAccounts :=
    [("addrA", Chain.holder "A" 0 9); ("addrC", big)] in
  ("addrC", big) ∈ accounts
  /\ (2 ^ 53 <= roundJoined big \/ 2 ^ 53 <= balance big)
  /\ Scripts.getParticipants accounts 1 = []
  /\ participantCount true (Some 1) accounts = 1.
Proof.
  intros big accounts.
  assert (Hin : ("addrC", big) ∈ accounts).
  { apply list_elem_of_further, list_elem_of_here. }
  assert (Hbig : 2 ^ 53 <= roundJoined big \/ 2 ^ 53 <= balance big).
  { right. cbn. lia. }
  destruct (participant_queries_swallow_overflow accounts 1 "addrC" big Hin)
    as [H _].
  split; [exact Hin|]. split; [exact Hbig|].
  split; [exact (proj1 (H Hbig))|vm_compute; reflexivity].
Defined.

End Batches.

(** ** The deposit hook and the purchase form *)
Section Purchase.
Import Number Tickets Hooks StakingRaffle RaffleView.







(** X15.  The purchase is open exactly when the status shown is 'Active',
    that is, when no round state is loaded or the loaded round is open and
    in epoch 1 or 2 (or below); in that case, and only then, the purchase
    button opens the confirmation dialog; in particular it does so while
    no round state is loaded. *)
Theorem canDeposit_iff_active (roundState : option RoundState) (v : View) :
  (canDeposit roundState = true <-> epochStatus roundState = Active)
  /\ (epochStatus roundState = Active <->
      roundState = None
      \/ exists r, roundState = Some r /\ isComplete r = false
                   /\ epochInRound r < 3)
  /\ (canDeposit roundState = true <->
      handleBuyClick roundState v = (setShowConfirmation true v, []))
  /\ handleBuyClick None v = (setShowConfirmation true v, []).
Proof.
  assert (Hstatus : epochStatus roundState = Active <->
      roundState = None
      \/ exists r, roundState = Some r /\ isComplete r = false
                   /\ epochInRound r < 3).
  { unfold epochStatus, roundIsComplete, currentEpochInRound.
    destruct roundState as [r|]; cbn.
    - destruct (isComplete r) eqn:Hc.
      + split; [discriminate|].
        intros [[=]|(r' & [= <-] & Hc' & _)]. congruence.
      + destruct (Z.leb_spec 3 (epochInRound r)).
        * split; [discriminate|].
          intros [[=]|(r' & [= <-] & _ & He)]. lia.
        * split; [|reflexivity]. intros _. right. exists r. tauto.
    - split; [|reflexivity]. intros _. left. reflexivity. }
  assert (Hcan : canDeposit roundState = true
                 <-> epochStatus roundState = Active).
  { unfold canDeposit, epochStatus, roundIsComplete, currentEpochInRound.
    destruct roundState as [r|]; cbn; [|tauto].
    destruct (isComplete r); cbn.
    - rewrite andb_false_r. split; discriminate.
    - destruct (Z.leb_spec 3 (epochInRound r));
        destruct (Z.ltb_spec (epochInRound r) 3); cbn;
        try lia; split; (reflexivity || discriminate). }
  split; [exact Hcan|]. split; [exact Hstatus|].
  split; [|reflexivity].
  unfold handleBuyClick.
  destruct (canDeposit roundState); cbn.
  - split; reflexivity.
  - split; [discriminate|]. intros [= _ H]. 
Qed.

End Purchase.

(** ** The result screens *)
Section ResultScreens.
Import StakingRaffle RaffleView.

(** X16.  The prize-claim screen is shown only to a connected wallet that
    the completed round records as its winner and whose account joined
    that round with a balance or a pending withdrawal left; the refund
    screen is shown only to an account with such a stake that is not the
    recorded winner; and once the winner's balance and pending withdrawal
    are both zero, the winner is shown the spectator screen. *)
Theorem result_screens (roundState : option RoundState)
    (userAccount : option UserAccount) (publicKey : option string) :
  (screen roundState userAccount publicKey = WinnerView ->
   exists r u pk,
     roundState = Some r /\ userAccount = Some u /\ publicKey = Some pk
     /\ isComplete r = true /\ winner r = Some pk
     /\ roundJoined u = roundId r
     /\ (0 < balance u \/ 0 < pendingWithdrawalAmount u))
  /\ (screen roundState userAccount publicKey = LoserView ->
      exists r u,
        roundState = Some r /\ userAccount = Some u
        /\ isComplete r = true /\ roundJoined u = roundId r
        /\ (0 < balance u \/ 0 < pendingWithdrawalAmount u)
        /\ (publicKey = None \/ winner r <> publicKey))
  /\ (forall r u,
        roundState = Some r -> userAccount = Some u ->
        isComplete r = true ->
        balance u <= 0 -> pendingWithdrawalAmount u <= 0 ->
        screen roundState userAccount publicKey = SpectatorView)
  /\ (screen roundState userAccount publicKey = MainGrid <->
      roundIsComplete roundState = false).
Proof.
  assert (Hmain : screen roundState userAccount publicKey = MainGrid <->
                  roundIsComplete roundState = false).
  { unfold screen, epochStatus.
    destruct (roundIsComplete roundState); cbn.
    - split; [|discriminate].
      destruct (userHasStakeInCompletedRound roundState userAccount);
        destruct (userWon roundState publicKey); discriminate.
    - destruct (3 <=? currentEpochInRound roundState); cbn; tauto. }
  split; [|split; [|split; [|exact Hmain]]].
  - unfold screen.
    destruct (EpochStatus_eqb _ _); [|discriminate].
    destruct (userHasStakeInCompletedRound roundState userAccount) eqn:Hs;
      cbn; [|discriminate].
    destruct (userWon roundState publicKey) eqn:Hw; [|discriminate].
    intros _.
    unfold userHasStakeInCompletedRound, roundIsComplete, epochId in Hs.
    unfold userWon in Hw.
    destruct roundState as [r|]; [|discriminate].
    destruct userAccount as [u|]; cbn in Hs;
      [|rewrite andb_false_r in Hs; discriminate].
    destruct publicKey as [pk|]; [|discriminate].
    destruct (winner r) as [w|] eqn:Hwin; [|discriminate].
    apply bool_decide_eq_true in Hw. subst w.
    apply andb_true_iff in Hs as [Hc Hs].
    apply andb_true_iff in Hs as [Hj Hs].
    apply orb_true_iff in Hs.
    exists r, u, pk. repeat split; try assumption; lia.
  - unfold screen.
    destruct (EpochStatus_eqb _ _); [|discriminate].
    destruct (userHasStakeInCompletedRound roundState userAccount) eqn:Hs;
      cbn; [|discriminate].
    destruct (userWon roundState publicKey) eqn:Hw; [discriminate|].
    intros _.
    unfold userHasStakeInCompletedRound, roundIsComplete, epochId in Hs.
    unfold userWon in Hw.
    destruct roundState as [r|]; [|discriminate].
    destruct userAccount as [u|]; cbn in Hs;
      [|rewrite andb_false_r in Hs; discriminate].
    apply andb_true_iff in Hs as [Hc Hs].
    apply andb_true_iff in Hs as [Hj Hs].
    apply orb_true_iff in Hs.
    exists r, u. repeat split; try assumption; try lia.
    destruct publicKey as [pk|]; [right|left; reflexivity].
    destruct (winner r) as [w|]; [|discriminate].
    apply bool_decide_eq_false in Hw. congruence.
  - intros r u -> -> Hc Hb Hp.
    unfold screen, epochStatus, userHasStakeInCompletedRound,
      roundIsComplete.
    cbn. rewrite Hc. cbn.
    destruct (Z.ltb_spec 0 (balance u)); [lia|].
    destruct (Z.ltb_spec 0 (pendingWithdrawalAmount u)); [lia|].
    rewrite andb_false_r. reflexivity.
Qed.

Lemma result_screens_witness :
  let r := Chain.setFinal "W" 3 400000
             (Chain.addTickets 5 50000000
                (Chain.setEpoch 3 (Chain.newRound 1 0 "stake"))) in
  let u := Chain.credit 50000000 0 4 1 (Chain.newRecord "W") in
  screen (Some r) (Some u) (Some "W") = WinnerView
  /\ winner r = Some "W"
  /\ roundJoined u = roundId r.
Proof.
  intros r u.
  assert (H : screen (Some r) (Some u) (Some "W") = WinnerView)
    by (vm_compute; reflexivity).
  destruct (result_screens (Some r) (Some u) (Some "W")) as (Hw & _).
  destruct (Hw H) as (r' & u' & pk & [= <-] & [= <-] & [= <-] & _ & Hwin
                      & Hjoin & _).
  split; [exact H|]. split; [exact Hwin|exact Hjoin].
Defined.

End ResultScreens.

(** ** Rounding an amount down to whole tickets *)
Section ValidAmounts.
Import Number Tickets Hooks.



End ValidAmounts.
